(** * typescript-type-validator: the validation engine, embedded and verified

    The engine of [src/index.ts] in its final form (field options, validate
    options with [strict] and [rootKey], custom fields) is embedded below:
    the checkers [_isString] ... [_isObject], the field constructors, the
    mutually recursive [_fieldChecker] / [_objectFieldChecker] and
    [Validator.validate], together with the error classes of [src/error.ts].

    Modelling choices.
    - JavaScript values are primitives or references into a store; objects
      and arrays live in the store (a [gmap] from locations to cells), so
      that [obj[i] = next(v, i)] is a write into the caller's array and
      [!==] on objects compares references.
    - An object cell lists its own enumerable properties in the order
      [Object.keys] enumerates them; a schema is the list of its entries in
      that same order.  Properties inherited from prototypes are not
      modelled.
    - An object literal [{ k1: f1, ..., kn: fn }] creates its properties in
      the order they are written, and [Object.keys] lists the array indices
      first, in ascending order, then the other keys in order of creation:
      [Object_literal] gives the schema that such a literal denotes.
    - [JSON.stringify], which the constructor of [FieldTypeMismatchError]
      applies to the offending value, throws a TypeError on a circular
      structure.  The values of the model are plain data (no [toJSON]
      method, no getter, no BigInt), so this is its only failure.
    - A thrown exception is a result [Throw e h]; the store [h] at the time
      of the throw is kept.
    - A resolver is caller code: it is modelled as a function that may read
      the store and either returns a value or throws any exception. *)

From Stdlib Require Import ZArith String List Bool Lia.
From stdpp Require Import base option list gmap strings pretty.

(** ** Dynamic values and the store *)

Definition loc := nat.

(** Numbers: the engine only applies [typeof] and [!==] to them. *)
Inductive JsNumber : Type :=
| NaN
| Num (z : Z).

Inductive Value : Type :=
| VUndefined
| VNull
| VBool (b : bool)
| VNumber (n : JsNumber)
| VString (s : string)
| VRef (l : loc).

Inductive HeapObj : Type :=
| HObject (props : list (string * Value))
| HArray (elems : list Value).

Abbreviation Heap := (gmap loc HeapObj).

(** [typeof val] *)
Definition typeof (val : Value) : string :=
  match val with
  | VUndefined => "undefined"
  | VNull => "object"
  | VBool _ => "boolean"
  | VNumber _ => "number"
  | VString _ => "string"
  | VRef _ => "object"
  end.

(** [Array.isArray(obj)] *)
Definition isArray (h : Heap) (obj : Value) : bool :=
  match obj with
  | VRef l => match h !! l with Some (HArray _) => true | _ => false end
  | _ => false
  end.

(** The elements of an array value (empty for anything else). *)
Definition elements (h : Heap) (obj : Value) : list Value :=
  match obj with
  | VRef l => match h !! l with Some (HArray elems) => elems | _ => [] end
  | _ => []
  end.

(** [obj[i] = v] on an array, for an index within its bounds. *)
Definition store (obj : Value) (i : nat) (v : Value) (h : Heap) : Heap :=
  match obj with
  | VRef l =>
      match h !! l with
      | Some (HArray elems) => <[l := HArray (<[i := v]> elems)]> h
      | _ => h
      end
  | _ => h
  end.

(** The index-like keys ["0"], ["1"], ... of a sequence of length [n]. *)
Definition index_keys (n : nat) : list string :=
  map (fun i : nat => pretty i) (seq 0 n).

(** Lookup in a property list: the first binding of [key]. *)
Fixpoint assoc {A : Type} (key : string) (props : list (string * A)) : option A :=
  match props with
  | [] => None
  | (k, v) :: rest => if String.eqb k key then Some v else assoc key rest
  end.

(** The index denoted by [key] among the first [n] indices, if any. *)
Definition index_of_key (key : string) (n : nat) : option nat :=
  List.find (fun i : nat => String.eqb (pretty i) key) (seq 0 n).

Definition string_of_ascii (c : Ascii.ascii) : string := String c EmptyString.

(** [obj?.[key]]: own properties only; [undefined] on [null]/[undefined]. *)
Definition get_prop (h : Heap) (obj : Value) (key : string) : Value :=
  match obj with
  | VUndefined | VNull | VBool _ | VNumber _ => VUndefined
  | VString s =>
      if String.eqb key "length" then VNumber (Num (Z.of_nat (String.length s)))
      else match index_of_key key (String.length s) with
           | Some i => match String.get i s with
                       | Some c => VString (string_of_ascii c)
                       | None => VUndefined
                       end
           | None => VUndefined
           end
  | VRef l =>
      match h !! l with
      | Some (HObject props) => default VUndefined (assoc key props)
      | Some (HArray elems) =>
          if String.eqb key "length" then VNumber (Num (Z.of_nat (length elems)))
          else match index_of_key key (length elems) with
               | Some i => nth i elems VUndefined
               | None => VUndefined
               end
      | None => VUndefined
      end
  end.

(** [Object.keys(obj)]: [None] stands for the TypeError raised on [null]
    and [undefined]. *)
Definition Object_keys (h : Heap) (obj : Value) : option (list string) :=
  match obj with
  | VUndefined | VNull => None
  | VBool _ | VNumber _ => Some []
  | VString s => Some (index_keys (String.length s))
  | VRef l =>
      match h !! l with
      | Some (HObject props) => Some (map fst props)
      | Some (HArray elems) => Some (index_keys (length elems))
      | None => Some []
      end
  end.

(** [a === b] *)
Definition strict_eq (a b : Value) : bool :=
  match a, b with
  | VUndefined, VUndefined => true
  | VNull, VNull => true
  | VBool x, VBool y => Bool.eqb x y
  | VNumber (Num x), VNumber (Num y) => Z.eqb x y
  | VString x, VString y => String.eqb x y
  | VRef x, VRef y => Nat.eqb x y
  | _, _ => false
  end.

(** ** The error classes (src/error.ts) *)

Module Type_.
Inductive t : Type := String | Number | Bool | Object | Array | Custom.
End Type_.

(** The union [FieldValidationError] of the three classified classes. *)
Inductive FieldValidationError : Type :=
| FieldTypeMismatchError (key : string) (type : Type_.t) (value : Value)
| FieldNonNullableError (key : string)
| UnexpectedFieldError (key : string).

(** Everything that can be thrown: an instance of a classified class, the
    wrapper [ValidationError] around one, a plain [Error], or the runtime's
    [TypeError]. *)
Inductive Exn : Type :=
| Classified (error : FieldValidationError)
| ValidationError (error : FieldValidationError)
| Error (message : string)
| TypeError (message : string).

Definition isFieldValidationError (error : Exn) : bool :=
  match error with
  | Classified _ => true
  | _ => false
  end.

(** The [key] property carried by a classified error. *)
Definition error_key (e : FieldValidationError) : string :=
  match e with
  | FieldTypeMismatchError key _ _ => key
  | FieldNonNullableError key => key
  | UnexpectedFieldError key => key
  end.

(** ** Computations: store passing with exceptions *)

Inductive Outcome (A : Type) : Type :=
| Return (a : A) (h : Heap)
| Throw (e : Exn) (h : Heap).
Arguments Return {A} a h.
Arguments Throw {A} e h.

Definition M (A : Type) : Type := Heap -> Outcome A.

Definition ret {A : Type} (a : A) : M A := fun h => Return a h.
Definition throw {A : Type} (e : Exn) : M A := fun h => Throw e h.
Definition bind {A B : Type} (m : M A) (k : A -> M B) : M B :=
  fun h => match m h with
           | Return a h' => k a h'
           | Throw e h' => Throw e h'
           end.

#[global] Instance M_ret : MRet M := @ret.
#[global] Instance M_bind : MBind M := fun A B k m => bind m k.

(** ** [JSON.stringify] and the constructor of [FieldTypeMismatchError] *)

(** [JSON.stringify(value)] throws a TypeError ("Converting circular
    structure to JSON") when, serialising the properties of an object or
    the elements of an array, it comes back to a cell it is still inside
    of.  [stack] lists the cells the traversal is inside of.  [fuel]
    bounds the depth of the traversal; the number of cells of the store is
    enough (see [JSON_stringify_fuel]). *)
Fixpoint circular (fuel : nat) (h : Heap) (stack : list loc) (value : Value)
    {struct fuel} : bool :=
  match value with
  | VRef l =>
      if bool_decide (l ∈ stack) then true
      else
        match fuel with
        | O => false
        | S fuel' =>
            match h !! l with
            | Some (HObject props) =>
                existsb (fun kv => circular fuel' h (l :: stack)
                                     (default VUndefined (assoc (fst kv) props)))
                  props
            | Some (HArray elems) => existsb (circular fuel' h (l :: stack)) elems
            | None => false
            end
        end
  | _ => false
  end.

Definition JSON_stringify_throws (h : Heap) (value : Value) : bool :=
  circular (size h) h [] value.

(** [new FieldTypeMismatchError(key, type, value)]: the constructor builds
    its message with [value !== undefined ? `got value:
    ${JSON.stringify(value)}` : 'No value provided'], so it throws what
    [JSON.stringify] throws. *)
Definition new_FieldTypeMismatchError (key : string) (type : Type_.t)
    (value : Value) : M FieldValidationError :=
  fun h =>
    if negb (strict_eq value VUndefined) && JSON_stringify_throws h value
    then Throw (TypeError "Converting circular structure to JSON") h
    else Return (FieldTypeMismatchError key type value) h.

(** ** Schemas *)

Definition Resolver : Type := Heap -> Value -> string -> Exn + Value.

(** A field specification as the constructors build it:
    [{ fieldOptions: { optional }, type, schema, resolver, field }], where
    an absent ([undefined]) component is [None]; and a schema, the object
    [{ [key: string]: ... }] given by its entries in enumeration order. *)
#[local] Unset Elimination Schemes.
Inductive FieldSpec : Type :=
| MkFieldSpec (optional : option bool) (type : Type_.t)
    (schema : option Schema) (resolver : option Resolver)
    (field : option FieldSpec)
with Schema : Type :=
| MkSchema (entries : list (string * FieldSpec)).
#[local] Set Elimination Schemes.

Definition entries (schema : Schema) : list (string * FieldSpec) :=
  match schema with MkSchema es => es end.

Definition fieldOptions_optional (f : FieldSpec) : option bool :=
  match f with MkFieldSpec o _ _ _ _ => o end.
Definition type (f : FieldSpec) : Type_.t :=
  match f with MkFieldSpec _ t _ _ _ => t end.
Definition schema (f : FieldSpec) : option Schema :=
  match f with MkFieldSpec _ _ s _ _ => s end.
Definition resolver (f : FieldSpec) : option Resolver :=
  match f with MkFieldSpec _ _ _ r _ => r end.
Definition field_of (f : FieldSpec) : option FieldSpec :=
  match f with MkFieldSpec _ _ _ _ fld => fld end.

(** [type FieldOptions = { optional?: boolean }] *)
Record FieldOptions : Type := { optional : option bool }.
Definition no_options : FieldOptions := {| optional := None |}.

(** [{ optional: false, ...fieldOptions }] *)
Definition finalOptions (fieldOptions : FieldOptions) : option bool :=
  match optional fieldOptions with
  | Some b => Some b
  | None => Some false
  end.

Definition field (type : Type_.t) (fieldOptions : FieldOptions) : FieldSpec :=
  MkFieldSpec (finalOptions fieldOptions) type None None None.
Definition objectField (schema : Schema) (fieldOptions : FieldOptions) : FieldSpec :=
  MkFieldSpec (finalOptions fieldOptions) Type_.Object (Some schema) None None.
Definition arrayField (field : FieldSpec) (fieldOptions : FieldOptions) : FieldSpec :=
  MkFieldSpec (finalOptions fieldOptions) Type_.Array None None (Some field).
Definition customField (resolver : Resolver) (fieldOptions : FieldOptions) : FieldSpec :=
  MkFieldSpec (finalOptions fieldOptions) Type_.Custom None (Some resolver) None.

(** ** Object literals and the order of [Object.keys] *)

(** The decimal digit a character stands for. *)
Definition digit (c : Ascii.ascii) : option N :=
  let n := Ascii.N_of_ascii c in
  if (48 <=? n)%N && (n <=? 57)%N then Some (n - 48)%N else None.

Fixpoint parse_digits (acc : N) (s : string) : option N :=
  match s with
  | EmptyString => Some acc
  | String c rest =>
      match digit c with
      | Some d => parse_digits (10 * acc + d)%N rest
      | None => None
      end
  end.

(** The array index a property key denotes, if any: the key is the
    canonical decimal form of an integer below [2^32 - 1]. *)
Definition array_index (key : string) : option N :=
  match key with
  | EmptyString => None
  | _ =>
      match parse_digits 0%N key with
      | Some n =>
          if String.eqb (pretty n) key && (n <? 4294967295)%N then Some n else None
      | None => None
      end
  end.

(** One property definition [key: value] of a literal: a key written
    before keeps its place and takes the new value. *)
Fixpoint define_property {A : Type} (key : string) (value : A)
    (props : list (string * A)) : list (string * A) :=
  match props with
  | [] => [(key, value)]
  | (k, v) :: rest =>
      if String.eqb k key then (k, value) :: rest
      else (k, v) :: define_property key value rest
  end.

(** One member [key: value] of a literal; [__proto__: value] sets the
    prototype of the object and creates no property. *)
Definition literal_member {A : Type} (props : list (string * A))
    (kv : string * A) : list (string * A) :=
  if String.eqb (fst kv) "__proto__" then props
  else define_property (fst kv) (snd kv) props.

(** The properties of [{ k1: v1, ..., kn: vn }] in order of creation. *)
Definition created_properties {A : Type} (literal : list (string * A))
    : list (string * A) :=
  fold_left literal_member literal [].

Fixpoint insert_index {A : Type} (n : N) (kv : string * A)
    (sorted : list (N * (string * A))) : list (N * (string * A)) :=
  match sorted with
  | [] => [(n, kv)]
  | (m, kv') :: rest =>
      if (n <? m)%N then (n, kv) :: (m, kv') :: rest
      else (m, kv') :: insert_index n kv rest
  end.

(** The properties whose key is an array index, in ascending order. *)
Fixpoint indexed_properties {A : Type} (props : list (string * A))
    : list (N * (string * A)) :=
  match props with
  | [] => []
  | kv :: rest =>
      match array_index (fst kv) with
      | Some n => insert_index n kv (indexed_properties rest)
      | None => indexed_properties rest
      end
  end.

(** The other properties, in order of creation. *)
Definition named_properties {A : Type} (props : list (string * A))
    : list (string * A) :=
  List.filter (fun kv => negb (bool_decide (is_Some (array_index (fst kv))))) props.

(** The order in which [Object.keys] and [for ... in] list the own
    properties of an object. *)
Definition own_property_order {A : Type} (props : list (string * A))
    : list (string * A) :=
  map snd (indexed_properties props) ++ named_properties props.

(** The schema that the literal [{ k1: f1, ..., kn: fn }] denotes. *)
Definition Object_literal (declared : list (string * FieldSpec)) : Schema :=
  MkSchema (own_property_order (created_properties declared)).

(** [type ValidateOptions = { strict?: boolean; rootKey?: string }] *)
Record ValidateOptions : Type := { strict : option bool; rootKey : option string }.
Definition default_options : ValidateOptions := {| strict := None; rootKey := None |}.

(** ** The kind checkers *)

Definition _isString (val : Value) (key : string) : M Value :=
  if negb (String.eqb (typeof val) "string")
  then (error ← new_FieldTypeMismatchError key Type_.String val;
        throw (Classified error))
  else ret val.

Definition _isNumber (val : Value) (key : string) : M Value :=
  if negb (String.eqb (typeof val) "number")
  then (error ← new_FieldTypeMismatchError key Type_.Number val;
        throw (Classified error))
  else ret val.

Definition _isBool (val : Value) (key : string) : M Value :=
  if negb (String.eqb (typeof val) "boolean")
  then (error ← new_FieldTypeMismatchError key Type_.Bool val;
        throw (Classified error))
  else ret val.

(** Reads and writes of the store as computations. *)
Definition read_prop (obj : Value) (key : string) : M Value :=
  fun h => Return (get_prop h obj key) h.
Definition read_length (obj : Value) : M nat :=
  fun h => Return (length (elements h obj)) h.
Definition read_index (obj : Value) (i : nat) : M Value :=
  fun h => Return (nth i (elements h obj) VUndefined) h.
Definition write_index (obj : Value) (i : nat) (v : Value) : M unit :=
  fun h => Return tt (store obj i v h).
Definition test_isArray (obj : Value) : M bool :=
  fun h => Return (isArray h obj) h.

(** The loop [for (let i = 0; i < obj.length; i++) { const v = obj[i];
    obj[i] = next(v, i); }], started at index [i].  The bound [obj.length]
    and the element [obj[i]] are read from the current store on every
    iteration.  [n] bounds the number of iterations; [_isArray] runs the
    loop with the length on entry, which is never exhausted early (see
    [_isArray_loop_runs_to_the_end]). *)
Fixpoint _isArray_loop (n : nat) (obj : Value) (next : Value -> nat -> M Value)
    (i : nat) : M unit :=
  match n with
  | O => ret tt
  | S n' =>
      len ← read_length obj;
      if i <? len then
        v ← read_index obj i;
        r ← next v i;
        write_index obj i r;;
        _isArray_loop n' obj next (S i)
      else ret tt
  end.

Definition _isArray (obj : Value) (key : string) (next : Value -> nat -> M Value)
    : M Value :=
  isarr ← test_isArray obj;
  if negb isarr
  then (error ← new_FieldTypeMismatchError key Type_.Array obj;
        throw (Classified error))
  else
    len ← read_length obj;
    _isArray_loop len obj next 0;;
    ret obj.

Definition _isObject (obj : Value) (key : string) (next : Value -> M Value)
    : M Value :=
  if negb (String.eqb (typeof obj) "object")
  then (error ← new_FieldTypeMismatchError key Type_.Object obj;
        throw (Classified error))
  else next obj.

(** ** The engine *)

(** Truthiness of [rootKey] in [rootKey ? `${rootKey}.${key}` : key]. *)
Definition qualify (rootKey : option string) (key : string) : string :=
  match rootKey with
  | Some r => if String.eqb r "" then key else r +:+ "." +:+ key
  | None => key
  end.

(** [`${_key}[${index}]`] *)
Definition indexed (_key : string) (index : nat) : string :=
  _key +:+ "[" +:+ pretty index +:+ "]".

Section Open_recursion.

(** [_objectFieldChecker] on the schemas nested in the one being walked. *)
Variable rec : Schema -> Value -> bool -> option string -> M Value.

Definition _fieldChecker_with (value : Value) (key : string) (type : Type_.t)
    (strict : bool) (schema : option Schema) : M Value :=
  match type with
  | Type_.String => _isString value key
  | Type_.Number => _isNumber value key
  | Type_.Bool => _isBool value key
  | Type_.Object =>
      match schema with
      | Some s => _isObject value key (fun o => rec s o strict (Some key))
      | None =>
          throw (Error ("Object type for key " +:+ key +:+ " must have a schema defined"))
      end
  | _ => throw (Error ("Unknown type for key " +:+ key))
  end.

(** The call [resolver(obj?.[key], _key)] of a custom resolver. *)
Definition call_resolver (r : Resolver) (v : Value) (_key : string) : M Value :=
  fun h => match r h v _key with
           | inl e => Throw e h
           | inr result => Return result h
           end.

(** [fieldOptions.optional === true && obj?.[key] === undefined] *)
Definition skipped (f : FieldSpec) (v : Value) : bool :=
  bool_decide (fieldOptions_optional f = Some true) && strict_eq v VUndefined.

(** The element checker handed to [_isArray] for an array entry. *)
Definition element_checker (f : FieldSpec) (strict : bool) (_key : string)
    (o : Value) (index : nat) : M Value :=
  match field_of f with
  | Some field =>
      _fieldChecker_with o (indexed _key index) (type field) strict (schema field)
  | None => throw (TypeError "Cannot read properties of undefined (reading 'type')")
  end.

(** The body of [for (const key of Object.keys(schema))] for one entry. *)
Definition entry_with (obj : Value) (strict : bool) (rootKey : option string)
    (key : string) (f : FieldSpec) : M unit :=
  v ← read_prop obj key;
  if skipped f v
  then ret tt
  else
    let _key := qualify rootKey key in
    match type f with
    | Type_.String | Type_.Number | Type_.Bool | Type_.Object =>
        v ← read_prop obj key;
        _fieldChecker_with v _key (type f) strict (schema f);;
        ret tt
    | Type_.Array =>
        v ← read_prop obj key;
        _isArray v _key (element_checker f strict _key);;
        ret tt
    | Type_.Custom =>
        match resolver f with
        | None => throw (Error ("Resolver for key " +:+ key +:+ " must be a function"))
        | Some r =>
            v ← read_prop obj key;
            result ← call_resolver r v _key;
            v' ← read_prop obj key;
            if negb (strict_eq result v')
            then throw (Error ("Custom resolver for key " +:+ key +:+
                          " did not return the origin value, which is not allowed"))
            else ret tt
        end
    end.

End Open_recursion.

(** The [for ... of] loop over the schema entries. *)
Fixpoint for_entries (body : string -> FieldSpec -> M unit)
    (entries : list (string * FieldSpec)) : M unit :=
  match entries with
  | [] => ret tt
  | (key, f) :: rest => body key f ;; for_entries body rest
  end.

(** [expectedKeys.includes(key)] *)
Definition includes (expectedKeys : list string) (key : string) : bool :=
  existsb (String.eqb key) expectedKeys.

(** The strict check that opens [_objectFieldChecker]. *)
Definition strict_check (schema : Schema) (obj : Value) (strict : bool) : M unit :=
  fun h =>
    if strict then
      let expectedKeys := map fst (entries schema) in
      match Object_keys h obj with
      | None => Throw (TypeError "Cannot convert undefined or null to object") h
      | Some actualKeys =>
          let unexpectedKeys :=
            List.filter (fun key => negb (includes expectedKeys key)) actualKeys in
          match unexpectedKeys with
          | k0 :: _ => Throw (Classified (UnexpectedFieldError k0)) h
          | [] => Return tt h
          end
      end
    else Return tt h.

Fixpoint _objectFieldChecker (schema : Schema) (obj : Value) (strict : bool)
    (rootKey : option string) {struct schema} : M Value :=
  strict_check schema obj strict ;;
  for_entries (entry_with _objectFieldChecker obj strict rootKey) (entries schema) ;;
  ret obj.

Definition _fieldChecker : Value -> string -> Type_.t -> bool -> option Schema -> M Value :=
  _fieldChecker_with _objectFieldChecker.

Definition entry : Value -> bool -> option string -> string -> FieldSpec -> M unit :=
  entry_with _objectFieldChecker.

Definition _checkObject {T : Type} (obj : Value) (checker : Value -> M T) : M T :=
  checker obj.

Module Validator.

(** [{ strict: false, ...options }], then the default of the parameter
    [strict: boolean = false] of [_objectFieldChecker]. *)
Definition finalOptions_strict (options : ValidateOptions) : bool :=
  default false (strict options).

Definition validate (schema : Schema) (obj : Value) (options : ValidateOptions)
    : M Value :=
  fun h =>
    match _checkObject obj
            (fun o => _objectFieldChecker schema o (finalOptions_strict options)
                        (rootKey options)) h with
    | Return v h' => Return v h'
    | Throw error h' =>
        if isFieldValidationError error
        then match error with
             | Classified e => Throw (ValidationError e) h'
             | _ => Throw error h'
             end
        else Throw error h'
    end.

End Validator.

(** * Notions used in the statements *)

Ltac unfold_M :=
  unfold mbind, M_bind, mret, M_ret, bind, ret, throw in *.

(** [m] run in [h] leaves the store as it is, and if it returns, it
    returns [a]. *)
Definition returns_at {A : Type} (m : M A) (a : A) (h : Heap) : Prop :=
  match m h with
  | Return a' h' => a' = a /\ h' = h
  | Throw _ h' => h' = h
  end.

(** Induction over schemas and the field specifications nested in them. *)
Section Schema_induction.

Variable P : FieldSpec -> Prop.
Variable Q : Schema -> Prop.

Definition on_option {A : Type} (R : A -> Prop) (o : option A) : Prop :=
  match o with
  | Some a => R a
  | None => True
  end.

Hypothesis P_field : forall o t sch r fld,
  on_option Q sch -> on_option P fld -> P (MkFieldSpec o t sch r fld).
Hypothesis Q_schema : forall es,
  Forall (fun kf : string * FieldSpec => P (snd kf)) es -> Q (MkSchema es).

Fixpoint FieldSpec_mutind (f : FieldSpec) : P f :=
  match f with
  | MkFieldSpec o t sch r fld =>
      P_field o t sch r fld
        (match sch return on_option Q sch with
         | Some s => Schema_mutind s
         | None => I
         end)
        (match fld return on_option P fld with
         | Some f' => FieldSpec_mutind f'
         | None => I
         end)
  end
with Schema_mutind (s : Schema) : Q s :=
  match s with
  | MkSchema es =>
      Q_schema es
        ((fix all (l : list (string * FieldSpec)) :
            Forall (fun kf : string * FieldSpec => P (snd kf)) l :=
            match l with
            | [] => List.Forall_nil _
            | kf :: rest =>
                List.Forall_cons _ kf rest
                  (match kf return P (snd kf) with
                   | (_, f') => FieldSpec_mutind f'
                   end)
                  (all rest)
            end) es)
  end.

End Schema_induction.

(** The entries before [(key, f)] were walked without an error, after the
    strict check of this level. *)
Definition reaches_entry (schema : Schema) (obj : Value) (strict : bool)
    (rootKey : option string) (h : Heap)
    (pre : list (string * FieldSpec)) (key : string) (f : FieldSpec)
    (post : list (string * FieldSpec)) : Prop :=
  entries schema = pre ++ (key, f) :: post /\
  strict_check schema obj strict h = Return tt h /\
  for_entries (entry obj strict rootKey) pre h = Return tt h.

(** ** Keys that are enumerated where they are written *)

(** The key is neither an array index nor [__proto__]. *)
Definition plain_key (key : string) : Prop :=
  array_index key = None /\ key <> "__proto__".

(** ** What a failing kind check throws *)

(** What [throw new FieldTypeMismatchError(key, type, value)] throws when
    run in store [h]: the error, or what its constructor throws. *)
Definition thrown_mismatch (h : Heap) (key : string) (type : Type_.t)
    (value : Value) : Exn :=
  match new_FieldTypeMismatchError key type value h with
  | Return error _ => Classified error
  | Throw e _ => e
  end.

(** ** The top-level entry point *)

(** What [catch (error) { if (isFieldValidationError(error)) throw new
    ValidationError(error); throw error; }] rethrows. *)
Definition rethrown (error : Exn) : Exn :=
  match error with
  | Classified e => ValidationError e
  | _ => error
  end.

(** ** One entry, by kind *)

Definition _elementChecker : FieldSpec -> bool -> string -> Value -> nat -> M Value :=
  element_checker _objectFieldChecker.

(** The kinds [_fieldChecker] handles itself. *)
Definition is_field_kind (t : Type_.t) : bool :=
  match t with
  | Type_.String | Type_.Number | Type_.Bool | Type_.Object => true
  | Type_.Array | Type_.Custom => false
  end.

(** The [typeof] tag each kind check compares with. *)
Definition typeof_tag (t : Type_.t) : string :=
  match t with
  | Type_.String => "string"
  | Type_.Number => "number"
  | Type_.Bool => "boolean"
  | _ => "object"
  end.

(** The field is one whose kind is checked by the engine itself and, for
    an object field, carries the nested schema [objectField] gives it. *)
Definition kind_checked (f : FieldSpec) : Prop :=
  type f <> Type_.Custom /\ (type f = Type_.Object -> schema f <> None).

(** ** The calls made during a walk *)

(** A step of a key path: a field name, or an index into an array. *)
Inductive seg : Type :=
| Name (key : string)
| Index (index : nat).

(** [calls strict h s o r p s' o' r']: the call
    [_objectFieldChecker(s, o, strict, r)], run in store [h], makes the
    nested call [_objectFieldChecker(s', o', strict, r')] for the object
    found at the relative path [p], everything walked before it having
    passed. *)
Inductive calls (strict : bool) (h : Heap) :
  Schema -> Value -> option string -> list seg ->
  Schema -> Value -> option string -> Prop :=
| calls_here s o r : calls strict h s o r [] s o r
| calls_object s o r pre key f post s1 p s' o' r' :
    reaches_entry s o strict r h pre key f post ->
    skipped f (get_prop h o key) = false ->
    type f = Type_.Object ->
    schema f = Some s1 ->
    typeof (get_prop h o key) = "object" ->
    calls strict h s1 (get_prop h o key) (Some (qualify r key)) p s' o' r' ->
    calls strict h s o r (Name key :: p) s' o' r'
| calls_element s o r pre key f post fld s1 i p s' o' r' :
    reaches_entry s o strict r h pre key f post ->
    skipped f (get_prop h o key) = false ->
    type f = Type_.Array ->
    field_of f = Some fld ->
    type fld = Type_.Object ->
    schema fld = Some s1 ->
    isArray h (get_prop h o key) = true ->
    i < length (elements h (get_prop h o key)) ->
    (forall k, k < i ->
       _elementChecker f strict (qualify r key)
         (nth k (elements h (get_prop h o key)) VUndefined) k h =
       Return (nth k (elements h (get_prop h o key)) VUndefined) h) ->
    typeof (nth i (elements h (get_prop h o key)) VUndefined) = "object" ->
    calls strict h s1 (nth i (elements h (get_prop h o key)) VUndefined)
      (Some (indexed (qualify r key) i)) p s' o' r' ->
    calls strict h s o r (Name key :: Index i :: p) s' o' r'.

(** ** Key paths *)

(** The spec's description of a reported key: the dot-separated chain of
    the field names, an array element being written [name[index]]. *)
Fixpoint chain (p : list seg) : string :=
  match p with
  | [] => ""
  | Name key :: rest => "." +:+ key +:+ chain rest
  | Index index :: rest => "[" +:+ pretty index +:+ "]" +:+ chain rest
  end.

(** ... preceded by the root key when one is supplied (an empty string
    counts as none). *)
Definition key_path (rootKey : option string) (p : list seg) : string :=
  match rootKey, p with
  | Some (String c r), _ => String c r +:+ chain p
  | _, Name key :: rest => key +:+ chain rest
  | _, _ => chain p
  end.

(** The prefix in force at the level found at path [p]. *)
Definition level_key (rootKey : option string) (p : list seg) : option string :=
  match p with
  | [] => rootKey
  | _ => Some (key_path rootKey p)
  end.

Definition nonempty_name (s : seg) : Prop :=
  match s with
  | Name key => key <> ""
  | Index _ => True
  end.

(** ** Kind checks that fail *)

(** The value does not pass the kind check of kind [t]. *)
Definition fails_kind (h : Heap) (t : Type_.t) (v : Value) : Prop :=
  match t with
  | Type_.Array => isArray h v = false
  | _ => typeof v <> typeof_tag t
  end.

(** ** Where exceptions come from *)

(** [R] holds of every resolver that a walk of the schema can call: the
    resolvers of the custom entries of the schema and of the schemas nested
    in it. *)
Fixpoint resolvers_in_field (R : Resolver -> Prop) (f : FieldSpec) : Prop :=
  match f with
  | MkFieldSpec _ _ sch _ fld =>
      match sch with
      | Some s => resolvers_in_schema R s
      | None => True
      end /\
      match fld with
      | Some f' => resolvers_in_field R f'
      | None => True
      end
  end
with resolvers_in_schema (R : Resolver -> Prop) (s : Schema) : Prop :=
  match s with
  | MkSchema es =>
      (fix all (l : list (string * FieldSpec)) : Prop :=
         match l with
         | [] => True
         | (_, f) :: rest =>
             (on_option R (resolver f) /\ resolvers_in_field R f) /\ all rest
         end) es
  end.

(** The exceptions the engine constructs itself. *)
Definition engine_raised (e : Exn) : Prop :=
  match e with
  | Classified (FieldTypeMismatchError _ _ _) => True
  | Classified (UnexpectedFieldError _) => True
  | Error _ => True
  | TypeError _ => True
  | _ => False
  end.

(** Every exception the resolver throws satisfies [R]. *)
Definition throws_only (R : Exn -> Prop) (r : Resolver) : Prop :=
  forall h v key e, r h v key = inl e -> R e.

(** Every exception leaving a walk of [s] was constructed by the engine or
    satisfies [R]. *)
Definition origin (R : Exn -> Prop) (strict : bool) (h : Heap) (s : Schema) : Prop :=
  forall obj rootKey e h',
    _objectFieldChecker s obj strict rootKey h = Throw e h' ->
    engine_raised e \/ R e.

(** The exception is or wraps the reserved non-nullable error. *)
Definition mentions_non_nullable (e : Exn) : Prop :=
  match e with
  | Classified (FieldNonNullableError _) => True
  | ValidationError (FieldNonNullableError _) => True
  | _ => False
  end.

(** ** Values that satisfy a schema *)

(** The value is an Object (not an Array, not a primitive). *)
Definition is_Object (h : Heap) (v : Value) : Prop :=
  exists l props, v = VRef l /\ h !! l = Some (HObject props).

(** The spec's account of a value that satisfies a field specification
    (section 4.2, step 2c), and of an object that satisfies a schema
    (steps 2a and 2b): a primitive has exactly the declared type; the value
    of an object field is an Object that satisfies the nested schema; the
    value of an array field is an Array each of whose elements satisfies
    the element specification, at the key [key[index]]; the resolver of a
    custom field returns a value identical to the one it is given; an
    optional field may be absent. *)
Fixpoint satisfies_field (h : Heap) (f : FieldSpec) (key : string) (v : Value)
    {struct f} : Prop :=
  match f with
  | MkFieldSpec _ t sch res fld =>
      match t with
      | Type_.String => exists s, v = VString s
      | Type_.Number => exists n, v = VNumber n
      | Type_.Bool => exists b, v = VBool b
      | Type_.Object =>
          is_Object h v /\
          match sch with
          | Some s => satisfies_schema h s v (Some key)
          | None => False
          end
      | Type_.Array =>
          isArray h v = true /\
          match fld with
          | Some element =>
              forall i, i < length (elements h v) ->
                satisfies_field h element (indexed key i)
                  (nth i (elements h v) VUndefined)
          | None => False
          end
      | Type_.Custom =>
          match res with
          | Some r => exists result, r h v key = inr result /\
                                     strict_eq result v = true
          | None => False
          end
      end
  end
with satisfies_schema (h : Heap) (s : Schema) (obj : Value)
    (rootKey : option string) {struct s} : Prop :=
  match s with
  | MkSchema es =>
      (fix all (l : list (string * FieldSpec)) : Prop :=
         match l with
         | [] => True
         | (k, f) :: rest =>
             ((fieldOptions_optional f = Some true /\
               get_prop h obj k = VUndefined) \/
              satisfies_field h f (qualify rootKey k) (get_prop h obj k)) /\
             all rest
         end) es
  end.

Definition satisfies (h : Heap) (s : Schema) (v : Value) : Prop :=
  is_Object h v /\ satisfies_schema h s v None.

(** The element kinds of the array fields of a schema, and of the schemas
    nested in it, are kinds that the element checker handles. *)
Fixpoint elements_in_field (f : FieldSpec) : Prop :=
  match f with
  | MkFieldSpec _ _ sch _ fld =>
      match sch with
      | Some s => elements_in_schema s
      | None => True
      end /\
      match fld with
      | Some element =>
          is_field_kind (type element) = true /\ elements_in_field element
      | None => True
      end
  end
with elements_in_schema (s : Schema) : Prop :=
  match s with
  | MkSchema es =>
      (fix all (l : list (string * FieldSpec)) : Prop :=
         match l with
         | [] => True
         | (_, f) :: rest => elements_in_field f /\ all rest
         end) es
  end.

(** * Sample inputs *)

Definition optionally : FieldOptions := {| optional := Some true |}.

(** [{ a: field(Type.String) }] and the input [{ a: "x", extra: 1 }] *)
Definition schema_a : Schema :=
  MkSchema [("a", field Type_.String no_options)].
Definition heap_a_extra : Heap :=
  {[ 0 := HObject [("a", VString "x"); ("extra", VNumber (Num 1))] ]}.

(** [{ u: objectField({ age: field(Type.Number) }) }] with the inputs
    [{ u: { age: "bad" } }] and [{ u: { age: 1, z: 2 } }] *)
Definition schema_u_age : Schema :=
  MkSchema [("u", objectField (MkSchema [("age", field Type_.Number no_options)])
                    no_options)].
Definition heap_u_age_bad : Heap :=
  <[ 0 := HObject [("u", VRef 1)] ]> {[ 1 := HObject [("age", VString "bad")] ]}.
Definition heap_u_age_z : Heap :=
  <[ 0 := HObject [("u", VRef 1)] ]>
    {[ 1 := HObject [("age", VNumber (Num 1)); ("z", VNumber (Num 2))] ]}.

(** The input [{ a: c }] where [c] is the object with [c.self === c] *)
Definition heap_a_circular : Heap :=
  <[ 0 := HObject [("a", VRef 1)] ]> {[ 1 := HObject [("self", VRef 1)] ]}.

(** [{ xs: arrayField(field(Type.String)) }] and the input [{ xs: ["ok", 5] }] *)
Definition schema_xs : Schema :=
  MkSchema [("xs", arrayField (field Type_.String no_options) no_options)].
Definition heap_xs : Heap :=
  <[ 0 := HObject [("xs", VRef 1)] ]>
    {[ 1 := HArray [VString "ok"; VNumber (Num 5)] ]}.

(** [{ u: objectField({ a: field(Type.String, { optional: true }) }) }] with
    the inputs [{ u: [] }] and [{ u: null }] *)
Definition schema_u_optional : Schema :=
  MkSchema [("u", objectField (MkSchema [("a", field Type_.String optionally)])
                    no_options)].
Definition heap_u_array : Heap :=
  <[ 0 := HObject [("u", VRef 1)] ]> {[ 1 := HArray [] ]}.
Definition heap_u_null : Heap :=
  {[ 0 := HObject [("u", VNull)] ]}.

(** [{ xs: arrayField(customField(r)) }] and the input [{ xs: [1] }] *)
Definition schema_xs_custom (r : Resolver) : Schema :=
  MkSchema [("xs", arrayField (customField r no_options) no_options)].
Definition heap_xs_one : Heap :=
  <[ 0 := HObject [("xs", VRef 1)] ]> {[ 1 := HArray [VNumber (Num 1)] ]}.

(** The resolver [(val) => val]. *)
Definition same : Resolver := fun _ val _ => inr val.

(** The resolver [(val, key) => { throw new FieldTypeMismatchError(key,
    Type.String, val); }]. *)
Definition rejecting : Resolver :=
  fun h val key => inl (thrown_mismatch h key Type_.String val).

(** The resolver [(val) => { throw new FieldTypeMismatchError("id",
    Type.String, val); }], which names the field itself. *)
Definition rejecting_as_id : Resolver :=
  fun h val _ => inl (thrown_mismatch h "id" Type_.String val).

(** The resolver [() => true]. *)
Definition always_true : Resolver := fun _ _ _ => inr (VBool true).

(** [{ c: customField(r) }] and the inputs [{}] and [{ c: 1 }] *)
Definition schema_c (r : Resolver) : Schema :=
  MkSchema [("c", customField r no_options)].
Definition heap_empty_object : Heap := {[ 0 := HObject [] ]}.
Definition heap_c_one : Heap := {[ 0 := HObject [("c", VNumber (Num 1))] ]}.

(** [{ items: arrayField(objectField({ owner: objectField({ name:
    field(Type.String) }) })) }] and the input
    [{ items: [{ owner: { name: "n" } }, { owner: { name: 7 } }] }] *)
Definition schema_owner : Schema :=
  MkSchema [("name", field Type_.String no_options)].
Definition schema_item : Schema :=
  MkSchema [("owner", objectField schema_owner no_options)].
Definition schema_items : Schema :=
  MkSchema [("items", arrayField (objectField schema_item no_options) no_options)].
Definition heap_items : Heap :=
  <[ 0 := HObject [("items", VRef 1)] ]>
  (<[ 1 := HArray [VRef 2; VRef 3] ]>
  (<[ 2 := HObject [("owner", VRef 4)] ]>
  (<[ 3 := HObject [("owner", VRef 5)] ]>
  (<[ 4 := HObject [("name", VString "n")] ]>
  {[ 5 := HObject [("name", VNumber (Num 7))] ]})))).

Definition strict_under (root : string) : ValidateOptions :=
  {| strict := Some true; rootKey := Some root |}.
Definition strictly : ValidateOptions :=
  {| strict := Some true; rootKey := None |}.
Definition under (root : string) : ValidateOptions :=
  {| strict := None; rootKey := Some root |}.

(** [{ a: field(Type.String), b: field(Type.String) }] and the input
    [{ a: 1, zz: 2, yy: 3 }] *)
Definition schema_ab : Schema :=
  MkSchema [("a", field Type_.String no_options);
            ("b", field Type_.String no_options)].
Definition heap_a_zz_yy : Heap :=
  {[ 0 := HObject [("a", VNumber (Num 1)); ("zz", VNumber (Num 2));
                   ("yy", VNumber (Num 3))] ]}.

(** The same schema, and [{ b: field(Type.String), 1: field(Type.String) }],
    as the literals are written *)
Definition declared_a_b : list (string * FieldSpec) :=
  [("a", field Type_.String no_options); ("b", field Type_.String no_options)].
Definition declared_b_1 : list (string * FieldSpec) :=
  [("b", field Type_.String no_options); ("1", field Type_.String no_options)].

(** [{ n: field(Type.Number, { optional: true }), xs: arrayField(...) }] *)
Definition schema_n_xs : Schema :=
  MkSchema [("n", field Type_.Number optionally);
            ("xs", arrayField (field Type_.String no_options) no_options)].

(** [{ u: objectField({ id: customField(r) }) }] and the input
    [{ u: { id: 1 } }] *)
Definition schema_id (r : Resolver) : Schema :=
  MkSchema [("id", customField r no_options)].
Definition schema_u_id (r : Resolver) : Schema :=
  MkSchema [("u", objectField (schema_id r) no_options)].
Definition heap_u_id : Heap :=
  <[ 0 := HObject [("u", VRef 1)] ]> {[ 1 := HObject [("id", VNumber (Num 1))] ]}.

(** The resolver [() => { throw new Error("bad id"); }]. *)
Definition failing : Resolver := fun _ _ _ => inl (Error "bad id").

(** [{ a: field(Type.String), b: objectField({ c: field(Type.Number),
    d: field(Type.Bool, { optional: true }) }) }] and the input
    [{ a: "bar", b: {} }] *)
Definition schema_c_d : Schema :=
  MkSchema [("c", field Type_.Number no_options);
            ("d", field Type_.Bool optionally)].
Definition schema_a_b : Schema :=
  MkSchema [("a", field Type_.String no_options);
            ("b", objectField schema_c_d no_options)].
Definition heap_a_b_empty : Heap :=
  <[ 0 := HObject [("a", VString "bar"); ("b", VRef 1)] ]> {[ 1 := HObject [] ]}.

(** * Notions used in the further properties *)

(** ** What a walk accepts *)

(** The conditions under which the checks of the engine let a value
    through, read off the code: [accepts_value] for the call
    [_fieldChecker(v, key, f.type, strict, f.schema)], and [accepts_schema]
    for the call [_objectFieldChecker(s, obj, strict, rootKey)]: the strict
    check finds every key of [obj] declared, and every entry is skipped, or
    passes the check of its kind. *)
Fixpoint accepts_value (strict : bool) (h : Heap) (f : FieldSpec) (key : string)
    (v : Value) {struct f} : Prop :=
  match f with
  | MkFieldSpec _ t sch _ _ =>
      match t with
      | Type_.String => typeof v = "string"
      | Type_.Number => typeof v = "number"
      | Type_.Bool => typeof v = "boolean"
      | Type_.Object =>
          typeof v = "object" /\
          match sch with
          | Some s => accepts_schema strict h s v (Some key)
          | None => False
          end
      | Type_.Array | Type_.Custom => False
      end
  end
with accepts_schema (strict : bool) (h : Heap) (s : Schema) (obj : Value)
    (rootKey : option string) {struct s} : Prop :=
  match s with
  | MkSchema es =>
      (strict = true ->
       exists actualKeys,
         Object_keys h obj = Some actualKeys /\
         Forall (fun k => In k (map fst es)) actualKeys) /\
      (fix all (l : list (string * FieldSpec)) : Prop :=
         match l with
         | [] => True
         | (k, f) :: rest =>
             (skipped f (get_prop h obj k) = true \/
              match f with
              | MkFieldSpec _ t _ res fld =>
                  match t with
                  | Type_.Array =>
                      isArray h (get_prop h obj k) = true /\
                      forall i, i < length (elements h (get_prop h obj k)) ->
                        match fld with
                        | Some element =>
                            accepts_value strict h element
                              (indexed (qualify rootKey k) i)
                              (nth i (elements h (get_prop h obj k)) VUndefined)
                        | None => False
                        end
                  | Type_.Custom =>
                      match res with
                      | Some r =>
                          exists result,
                            r h (get_prop h obj k) (qualify rootKey k) = inr result /\
                            strict_eq result (get_prop h obj k) = true
                      | None => False
                      end
                  | _ => accepts_value strict h f (qualify rootKey k) (get_prop h obj k)
                  end
              end) /\
             all rest
         end) es
  end.

(** One entry of a schema is accepted. *)
Definition accepts_entry (strict : bool) (h : Heap) (obj : Value)
    (rootKey : option string) (k : string) (f : FieldSpec) : Prop :=
  skipped f (get_prop h obj k) = true \/
  match type f with
  | Type_.Array =>
      isArray h (get_prop h obj k) = true /\
      forall i, i < length (elements h (get_prop h obj k)) ->
        match field_of f with
        | Some element =>
            accepts_value strict h element (indexed (qualify rootKey k) i)
              (nth i (elements h (get_prop h obj k)) VUndefined)
        | None => False
        end
  | Type_.Custom =>
      match resolver f with
      | Some r =>
          exists result,
            r h (get_prop h obj k) (qualify rootKey k) = inr result /\
            strict_eq result (get_prop h obj k) = true
      | None => False
      end
  | _ => accepts_value strict h f (qualify rootKey k) (get_prop h obj k)
  end.

(** The kind check of [f] returns exactly on the values [accepts_value]
    describes. *)
Definition checks_as_accepted (strict : bool) (h : Heap) (f : FieldSpec) : Prop :=
  forall key v,
    _fieldChecker v key (type f) strict (schema f) h = Return v h <->
    accepts_value strict h f key v.

(** The value passes the test the engine applies for kind [t]: a string, a
    number or a boolean for the primitive kinds, [typeof] "object" for an
    object field, [Array.isArray] for an array field; a custom field has
    no test of the engine. *)
Definition has_kind (h : Heap) (t : Type_.t) (v : Value) : Prop :=
  match t with
  | Type_.String => exists s, v = VString s
  | Type_.Number => exists n, v = VNumber n
  | Type_.Bool => exists b, v = VBool b
  | Type_.Object => typeof v = "object"
  | Type_.Array => isArray h v = true
  | Type_.Custom => True
  end.

(** ** Schemas without custom fields, and plain schemas *)

(** No entry of the schema, or of a schema nested in it, is a custom
    field. *)
Fixpoint custom_free_field (f : FieldSpec) : Prop :=
  match f with
  | MkFieldSpec _ _ sch _ fld =>
      match sch with
      | Some s => custom_free_schema s
      | None => True
      end /\
      match fld with
      | Some element => custom_free_field element
      | None => True
      end
  end
with custom_free_schema (s : Schema) : Prop :=
  match s with
  | MkSchema es =>
      (fix all (l : list (string * FieldSpec)) : Prop :=
         match l with
         | [] => True
         | (_, f) :: rest =>
             (type f <> Type_.Custom /\ custom_free_field f) /\ all rest
         end) es
  end.

(** A plain schema: what [field], [objectField] and [arrayField] build,
    without custom fields: every object field, also as the element of an
    array field, carries its nested schema, and the element of an array
    field is a primitive or an object field. *)
Fixpoint plain_field (f : FieldSpec) : Prop :=
  match f with
  | MkFieldSpec _ t sch _ fld =>
      t <> Type_.Custom /\
      (t = Type_.Object -> sch <> None) /\
      (t = Type_.Array ->
       match fld with
       | Some element => is_field_kind (type element) = true
       | None => False
       end) /\
      match sch with
      | Some s => plain_schema s
      | None => True
      end /\
      match fld with
      | Some element => plain_field element
      | None => True
      end
  end
with plain_schema (s : Schema) : Prop :=
  match s with
  | MkSchema es =>
      (fix all (l : list (string * FieldSpec)) : Prop :=
         match l with
         | [] => True
         | (_, f) :: rest => plain_field f /\ all rest
         end) es
  end.

(** What a walk of a plain schema can throw in store [h]: a type-mismatch
    error for a value that [JSON.stringify] serialises; a TypeError, that
    of [Object.keys] in strict mode or that of [JSON.stringify] when the
    store holds a circular value; and in strict mode an unexpected-field
    error. *)
Definition plain_failure (strict : bool) (h : Heap) (e : Exn) : Prop :=
  match e with
  | Classified (FieldTypeMismatchError _ _ value) =>
      JSON_stringify_throws h value = false
  | Classified (UnexpectedFieldError _) => strict = true
  | TypeError _ =>
      strict = true \/ exists value, JSON_stringify_throws h value = true
  | _ => False
  end.

(** ** The validator handle *)

(** [class Validator<T> { private schema: T; constructor(schema) ...;
    public validate(obj, options = {}) }] *)
Record ValidatorHandle : Type := { handle_schema : Schema }.

Definition new_Validator (schema : Schema) : ValidatorHandle :=
  {| handle_schema := schema |}.

Definition handle_validate (this : ValidatorHandle) (obj : Value)
    (options : ValidateOptions) : M Value :=
  Validator.validate (handle_schema this) obj options.

(** ** The messages of the error classes (src/error.ts) *)

(** The double quote character. *)
Definition dquote : string := String (Ascii.ascii_of_nat 34) EmptyString.

(** [type.toString()] for the string enum [Type]. *)
Definition Type_toString (t : Type_.t) : string :=
  match t with
  | Type_.String => "String"
  | Type_.Number => "Number"
  | Type_.Bool => "Bool"
  | Type_.Object => "Object"
  | Type_.Array => "Array"
  | Type_.Custom => "Custom"
  end.

(** The [message] each constructor of a classified error passes to
    [super]; [stringify] stands for [JSON.stringify] on the value as it is
    when the error is constructed. *)
Definition field_error_message (stringify : Value -> string)
    (e : FieldValidationError) : string :=
  match e with
  | FieldTypeMismatchError key type value =>
      "Validation error for field " +:+ dquote +:+ key +:+ dquote +:+
      " of type " +:+ dquote +:+ Type_toString type +:+ dquote +:+ ": " +:+
      (if negb (strict_eq value VUndefined)
       then "got value: " +:+ stringify value
       else "No value provided")
  | FieldNonNullableError key =>
      "Field " +:+ dquote +:+ key +:+ dquote +:+ " is required but was not provided."
  | UnexpectedFieldError key =>
      "Unexpected field " +:+ dquote +:+ key +:+ dquote +:+ " found in the object."
  end.

(** The [message] of anything thrown. *)
Definition message (stringify : Value -> string) (e : Exn) : string :=
  match e with
  | Classified error => field_error_message stringify error
  | ValidationError error =>
      "Validation error: " +:+ field_error_message stringify error
  | Error m => m
  | TypeError m => m
  end.

(** ** Further sample inputs *)

(** The input [{ a: "x" }], alone and beside [{ a: "x", extra: 1 }] *)
Definition heap_a_only : Heap := {[ 0 := HObject [("a", VString "x")] ]}.
Definition heap_a_twice : Heap :=
  <[ 0 := HObject [("a", VString "x"); ("extra", VNumber (Num 1))] ]>
    {[ 1 := HObject [("a", VString "x")] ]}.

(** The input [{ u: { age: 1 } }] *)
Definition heap_u_age_one : Heap :=
  <[ 0 := HObject [("u", VRef 1)] ]> {[ 1 := HObject [("age", VNumber (Num 1))] ]}.

(** The input [{ xs: [] }] *)
Definition heap_xs_empty : Heap :=
  <[ 0 := HObject [("xs", VRef 1)] ]> {[ 1 := HArray [] ]}.

(** A stand-in for [JSON.stringify]. *)
Definition no_stringify : Value -> string := fun _ => "".

(** * Properties *)

(** ** Reasoning about computations *)

Lemma bind_Return {A B : Type} (m : M A) (k : A -> M B) (h h' : Heap) (a : A) :
  m h = Return a h' -> (m ≫= k) h = k a h'.
Proof. intros Hm. unfold_M. now rewrite Hm. Qed.

Lemma bind_Throw {A B : Type} (m : M A) (k : A -> M B) (h h' : Heap) (e : Exn) :
  m h = Throw e h' -> (m ≫= k) h = Throw e h'.
Proof. intros Hm. unfold_M. now rewrite Hm. Qed.

Lemma returns_at_cases {A : Type} (m : M A) (a : A) (h : Heap) :
  returns_at m a h -> m h = Return a h \/ exists e, m h = Throw e h.
Proof.
  unfold returns_at. destruct (m h) as [a' h'|e h'].
  - intros [-> ->]. now left.
  - intros ->. right. now exists e.
Qed.

Lemma returns_at_ret {A : Type} (a : A) (h : Heap) : returns_at (ret a) a h.
Proof. now unfold returns_at, ret. Qed.

Lemma returns_at_throw {A : Type} (e : Exn) (a : A) (h : Heap) :
  returns_at (throw e) a h.
Proof. now unfold returns_at, throw. Qed.

Lemma returns_at_bind {A B : Type} (m : M A) (k : A -> M B) (a : A) (b : B)
    (h : Heap) :
  returns_at m a h -> returns_at (k a) b h -> returns_at (m ≫= k) b h.
Proof.
  intros Hm Hk. unfold returns_at in *. unfold_M.
  destruct (m h) as [a' h'|e h'].
  - destruct Hm as [-> ->]. exact Hk.
  - exact Hm.
Qed.

(** ** [JSON.stringify] and the constructor of the type-mismatch error *)

(** The cells a traversal is inside of are distinct cells of the store, so
    there are fewer of them than the store has cells while one more can
    be entered. *)
Lemma stack_below_size (h : Heap) (stack : list loc) (l : loc) :
  NoDup stack ->
  Forall (fun x => is_Some (h !! x)) stack ->
  l ∉ stack -> is_Some (h !! l) ->
  length stack < size h.
Proof.
  intros Hnd Hin Hl Hsome.
  assert (Hsub : list_to_set (l :: stack) ⊆ dom h).
  { intros x Hx. apply elem_of_list_to_set in Hx. apply elem_of_dom.
    apply elem_of_cons in Hx as [->|Hx]; [exact Hsome|].
    rewrite Forall_forall in Hin. now apply Hin. }
  apply subseteq_size in Hsub.
  rewrite size_list_to_set in Hsub by (now constructor).
  rewrite size_dom in Hsub. simpl in Hsub. lia.
Qed.

Lemma existsb_agree {A : Type} (f g : A -> bool) (l : list A) :
  (forall x, f x = g x) -> existsb f l = existsb g l.
Proof.
  intros Hfg. induction l as [|a l IH]; simpl; [reflexivity|].
  now rewrite Hfg, IH.
Qed.

(** The bound on the depth is not what ends the traversal: any two bounds
    that leave room for the cells not yet entered give the same answer. *)
Lemma circular_fuel (h : Heap) (fuel fuel' : nat) :
  forall stack value,
    NoDup stack ->
    Forall (fun x => is_Some (h !! x)) stack ->
    size h <= fuel + length stack ->
    size h <= fuel' + length stack ->
    circular fuel h stack value = circular fuel' h stack value.
Proof.
  revert fuel'.
  induction fuel as [|fuel IH]; intros fuel' stack value Hnd Hin Hf Hf';
    (destruct value as [| | | | |l]; [now destruct fuel'..|]);
    destruct fuel' as [|fuel']; simpl; try reflexivity;
    (destruct (bool_decide (l ∈ stack)) eqn:Hl; [reflexivity|]);
    apply bool_decide_eq_false in Hl;
    destruct (h !! l) as [cell|] eqn:Hcell; try reflexivity.
  - pose proof (stack_below_size h stack l Hnd Hin Hl (mk_is_Some _ _ Hcell)). lia.
  - pose proof (stack_below_size h stack l Hnd Hin Hl (mk_is_Some _ _ Hcell)). lia.
  - assert (Hrec : forall v,
              circular fuel h (l :: stack) v = circular fuel' h (l :: stack) v).
    { intros v. apply IH.
      - now constructor.
      - constructor; [now rewrite Hcell|exact Hin].
      - simpl. lia.
      - simpl. lia. }
    destruct cell as [props|elems]; apply existsb_agree; intros x; apply Hrec.
Qed.

(** With at least as much fuel as the store has cells, the traversal
    ends by itself. *)
Lemma JSON_stringify_fuel (h : Heap) (value : Value) (fuel : nat) :
  size h <= fuel -> circular fuel h [] value = JSON_stringify_throws h value.
Proof.
  intros Hf. apply circular_fuel; [constructor|constructor|simpl; lia|simpl; lia].
Qed.

(** Only objects and arrays can be circular. *)
Lemma JSON_stringify_primitive (h : Heap) (value : Value) :
  (forall l, value <> VRef l) -> JSON_stringify_throws h value = false.
Proof.
  intros Hv. unfold JSON_stringify_throws.
  destruct value as [| | | | |l]; try (now destruct (size h)).
  now destruct (Hv l).
Qed.

Lemma throw_new_FieldTypeMismatchError {A : Type} (key : string) (t : Type_.t)
    (value : Value) (h : Heap) :
  (error ← new_FieldTypeMismatchError key t value;
   (throw (Classified error) : M A)) h =
  Throw (thrown_mismatch h key t value) h.
Proof.
  unfold thrown_mismatch. unfold_M. unfold new_FieldTypeMismatchError.
  now destruct (negb (strict_eq value VUndefined) && JSON_stringify_throws h value).
Qed.

(** A value that [JSON.stringify] serialises is reported in the error. *)
Lemma thrown_mismatch_serialisable (h : Heap) (key : string) (t : Type_.t)
    (value : Value) :
  JSON_stringify_throws h value = false ->
  thrown_mismatch h key t value = Classified (FieldTypeMismatchError key t value).
Proof.
  intros Hv. unfold thrown_mismatch, new_FieldTypeMismatchError.
  now rewrite Hv, andb_false_r.
Qed.

(** A circular value is not: the constructor of the error throws. *)
Lemma thrown_mismatch_circular (h : Heap) (key : string) (t : Type_.t)
    (value : Value) :
  JSON_stringify_throws h value = true ->
  thrown_mismatch h key t value = TypeError "Converting circular structure to JSON".
Proof.
  intros Hv. unfold thrown_mismatch, new_FieldTypeMismatchError. rewrite Hv.
  destruct value as [| | |[|z]| |l]; try reflexivity.
  rewrite JSON_stringify_primitive in Hv by discriminate. discriminate Hv.
Qed.

Lemma thrown_mismatch_primitive (h : Heap) (key : string) (t : Type_.t)
    (value : Value) :
  (forall l, value <> VRef l) ->
  thrown_mismatch h key t value = Classified (FieldTypeMismatchError key t value).
Proof. intros Hv. now apply thrown_mismatch_serialisable, JSON_stringify_primitive. Qed.

Lemma thrown_mismatch_engine_raised (h : Heap) (key : string) (t : Type_.t)
    (value : Value) :
  engine_raised (thrown_mismatch h key t value).
Proof.
  destruct (JSON_stringify_throws h value) eqn:Hv.
  - now rewrite thrown_mismatch_circular.
  - now rewrite thrown_mismatch_serialisable.
Qed.

Lemma returns_at_throw_new {A : Type} (key : string) (t : Type_.t)
    (value : Value) (a : A) (h : Heap) :
  returns_at (error ← new_FieldTypeMismatchError key t value;
              (throw (Classified error) : M A)) a h.
Proof. unfold returns_at. now rewrite throw_new_FieldTypeMismatchError. Qed.

(** ** The store is never changed *)

(** Writing back the element that was read leaves the store as it is. *)
Lemma store_same (h : Heap) (obj : Value) (i : nat) :
  i < length (elements h obj) ->
  store obj i (nth i (elements h obj) VUndefined) h = h.
Proof.
  unfold store, elements. destruct obj as [| | | | |l]; try reflexivity.
  destruct (h !! l) as [[props|elems]|] eqn:Hl; try reflexivity.
  intros Hi. apply insert_id. rewrite Hl. do 2 f_equal.
  symmetry. apply list_insert_id.
  destruct (nth_lookup_or_length elems i VUndefined) as [Hn|Hn]; [exact Hn|lia].
Qed.

Lemma _isString_returns (val : Value) (key : string) (h : Heap) :
  returns_at (_isString val key) val h.
Proof.
  unfold _isString. destruct (negb _);
    [apply returns_at_throw_new | apply returns_at_ret].
Qed.

Lemma _isNumber_returns (val : Value) (key : string) (h : Heap) :
  returns_at (_isNumber val key) val h.
Proof.
  unfold _isNumber. destruct (negb _);
    [apply returns_at_throw_new | apply returns_at_ret].
Qed.

Lemma _isBool_returns (val : Value) (key : string) (h : Heap) :
  returns_at (_isBool val key) val h.
Proof.
  unfold _isBool. destruct (negb _);
    [apply returns_at_throw_new | apply returns_at_ret].
Qed.

Lemma _isObject_returns (obj : Value) (key : string) (next : Value -> M Value)
    (h : Heap) :
  returns_at (next obj) obj h -> returns_at (_isObject obj key next) obj h.
Proof.
  intros Hnext. unfold _isObject. destruct (negb _);
    [apply returns_at_throw_new | exact Hnext].
Qed.

Lemma _isArray_loop_returns (n : nat) (obj : Value)
    (next : Value -> nat -> M Value) (h : Heap) :
  (forall v i, returns_at (next v i) v h) ->
  forall i, returns_at (_isArray_loop n obj next i) tt h.
Proof.
  intros Hnext. induction n as [|n IH]; intros i; simpl.
  - apply returns_at_ret.
  - apply returns_at_bind with (a := length (elements h obj)).
    { now unfold returns_at, read_length. }
    destruct (i <? length (elements h obj)) eqn:Hi; [|apply returns_at_ret].
    apply Nat.ltb_lt in Hi.
    apply returns_at_bind with (a := nth i (elements h obj) VUndefined).
    { now unfold returns_at, read_index. }
    apply returns_at_bind with (a := nth i (elements h obj) VUndefined).
    { apply Hnext. }
    apply returns_at_bind with (a := tt).
    { unfold returns_at, write_index. now rewrite store_same. }
    apply IH.
Qed.

Lemma _isArray_returns (obj : Value) (key : string)
    (next : Value -> nat -> M Value) (h : Heap) :
  (forall v i, returns_at (next v i) v h) ->
  returns_at (_isArray obj key next) obj h.
Proof.
  intros Hnext. unfold _isArray.
  apply returns_at_bind with (a := isArray h obj).
  { now unfold returns_at, test_isArray. }
  destruct (negb _); [apply returns_at_throw_new|].
  apply returns_at_bind with (a := length (elements h obj)).
  { now unfold returns_at, read_length. }
  apply returns_at_bind with (a := tt).
  { now apply _isArray_loop_returns. }
  apply returns_at_ret.
Qed.

Lemma _objectFieldChecker_eq (schema : Schema) (obj : Value) (strict : bool)
    (rootKey : option string) :
  _objectFieldChecker schema obj strict rootKey =
  (strict_check schema obj strict;;
   for_entries (entry obj strict rootKey) (entries schema);;
   ret obj).
Proof. destruct schema; reflexivity. Qed.

Lemma strict_check_returns (schema : Schema) (obj : Value) (strict : bool)
    (h : Heap) :
  returns_at (strict_check schema obj strict) tt h.
Proof.
  unfold returns_at, strict_check. destruct strict; [|done].
  destruct (Object_keys h obj); [|done]. now destruct (List.filter _ _).
Qed.

Lemma for_entries_returns (body : string -> FieldSpec -> M unit)
    (es : list (string * FieldSpec)) (h : Heap) :
  Forall (fun kf => returns_at (body (fst kf) (snd kf)) tt h) es ->
  returns_at (for_entries body es) tt h.
Proof.
  induction 1 as [|[k f] rest Hkf _ IH]; simpl.
  - apply returns_at_ret.
  - eapply returns_at_bind; [exact Hkf | exact IH].
Qed.

Section Store_unchanged.

Variable rec : Schema -> Value -> bool -> option string -> M Value.
Variable h : Heap.

Lemma _fieldChecker_with_returns (value : Value) (key : string) (t : Type_.t)
    (strict : bool) (sch : option Schema) :
  on_option (fun s => forall o r, returns_at (rec s o strict r) o h) sch ->
  returns_at (_fieldChecker_with rec value key t strict sch) value h.
Proof.
  intros Hrec. destruct t; simpl.
  - apply _isString_returns.
  - apply _isNumber_returns.
  - apply _isBool_returns.
  - destruct sch as [s|]; [|apply returns_at_throw].
    apply _isObject_returns, Hrec.
  - apply returns_at_throw.
  - apply returns_at_throw.
Qed.

Lemma call_resolver_returns (r : Resolver) (v : Value) (_key : string) :
  match call_resolver r v _key h with
  | Return _ h' => h' = h
  | Throw _ h' => h' = h
  end.
Proof. unfold call_resolver. now destruct (r h v _key). Qed.

Lemma entry_with_returns (obj : Value) (strict : bool) (rootKey : option string)
    (key : string) (f : FieldSpec) :
  on_option (fun s => forall o r, returns_at (rec s o strict r) o h) (schema f) ->
  on_option (fun fld =>
    on_option (fun s => forall o r, returns_at (rec s o strict r) o h) (schema fld))
    (field_of f) ->
  returns_at (entry_with rec obj strict rootKey key f) tt h.
Proof.
  intros Hs Hf. unfold entry_with.
  apply returns_at_bind with (a := get_prop h obj key); [now unfold returns_at|].
  destruct (skipped _ _); [apply returns_at_ret|].
  assert (Hfield : returns_at
            (v ← read_prop obj key;
             _fieldChecker_with rec v (qualify rootKey key) (type f) strict (schema f);;
             ret tt) tt h).
  { apply returns_at_bind with (a := get_prop h obj key); [now unfold returns_at|].
    eapply returns_at_bind; [now apply _fieldChecker_with_returns|].
    apply returns_at_ret. }
  destruct (type f); try exact Hfield.
  - apply returns_at_bind with (a := get_prop h obj key); [now unfold returns_at|].
    eapply returns_at_bind; [|apply returns_at_ret].
    apply _isArray_returns. intros v i. unfold element_checker.
    destruct (field_of f) as [fld|]; [|apply returns_at_throw].
    now apply _fieldChecker_with_returns.
  - destruct (resolver f) as [r|]; [|apply returns_at_throw].
    apply returns_at_bind with (a := get_prop h obj key); [now unfold returns_at|].
    unfold returns_at. unfold_M. unfold call_resolver, read_prop.
    destruct (r h _ _) as [e|result]; [done|].
    now destruct (negb _).
Qed.

End Store_unchanged.

(** The walk never changes the store, and when it returns it returns the
    very value it was given: every write [obj[i] = next(v, i)] puts back
    the element [v] it has just read. *)
Theorem _objectFieldChecker_returns (schema : Schema) (h : Heap) (strict : bool) :
  forall obj rootKey,
    returns_at (_objectFieldChecker schema obj strict rootKey) obj h.
Proof.
  revert schema.
  apply (Schema_mutind
    (fun f =>
       on_option (fun s => forall o r,
         returns_at (_objectFieldChecker s o strict r) o h) (schema f) /\
       on_option (fun fld =>
         on_option (fun s => forall o r,
           returns_at (_objectFieldChecker s o strict r) o h) (schema fld))
         (field_of f))
    (fun s => forall obj rootKey,
       returns_at (_objectFieldChecker s obj strict rootKey) obj h)).
  - intros o t sch r fld Hs Hf. split; [exact Hs|].
    destruct fld as [fld|]; [|exact I]. apply Hf.
  - intros es Hes obj rootKey. rewrite _objectFieldChecker_eq.
    eapply returns_at_bind; [apply strict_check_returns|].
    eapply returns_at_bind; [|apply returns_at_ret].
    apply for_entries_returns. simpl.
    eapply Forall_impl; [exact Hes|].
    intros [k f] [Hs Hf]. now apply entry_with_returns.
Qed.

Corollary _objectFieldChecker_cases (schema : Schema) (obj : Value) (strict : bool)
    (rootKey : option string) (h : Heap) :
  _objectFieldChecker schema obj strict rootKey h = Return obj h \/
  exists e, _objectFieldChecker schema obj strict rootKey h = Throw e h.
Proof. apply returns_at_cases, _objectFieldChecker_returns. Qed.

Corollary _fieldChecker_returns (value : Value) (key : string) (t : Type_.t)
    (strict : bool) (sch : option Schema) (h : Heap) :
  returns_at (_fieldChecker value key t strict sch) value h.
Proof.
  apply _fieldChecker_with_returns. destruct sch as [s|]; [|exact I].
  intros o r. apply _objectFieldChecker_returns.
Qed.

Corollary entry_returns (obj : Value) (strict : bool) (rootKey : option string)
    (key : string) (f : FieldSpec) (h : Heap) :
  returns_at (entry obj strict rootKey key f) tt h.
Proof.
  apply entry_with_returns.
  - destruct (schema f) as [s|]; [|exact I].
    intros o r. apply _objectFieldChecker_returns.
  - destruct (field_of f) as [fld|]; [simpl|exact I].
    destruct (schema fld) as [s|]; [|exact I].
    intros o r. apply _objectFieldChecker_returns.
Qed.

(** ** The walk of one object level *)

Lemma for_entries_app (body : string -> FieldSpec -> M unit)
    (l1 l2 : list (string * FieldSpec)) (h : Heap) :
  for_entries body (l1 ++ l2) h =
  (for_entries body l1;; for_entries body l2) h.
Proof.
  revert h. induction l1 as [|[k f] l1 IH]; intros h; simpl.
  - reflexivity.
  - unfold_M. destruct (body k f h) as [[] h'|e h']; [|reflexivity].
    apply IH.
Qed.

Lemma walk_at_entry (schema : Schema) (obj : Value) (strict : bool)
    (rootKey : option string) (h : Heap) pre key f post :
  reaches_entry schema obj strict rootKey h pre key f post ->
  _objectFieldChecker schema obj strict rootKey h =
  (entry obj strict rootKey key f;;
   for_entries (entry obj strict rootKey) post;;
   ret obj) h.
Proof.
  intros (Hes & Hstrict & Hpre). rewrite _objectFieldChecker_eq, Hes.
  rewrite (bind_Return _ _ _ _ _ Hstrict).
  unfold mbind at 1, M_bind, bind. rewrite for_entries_app.
  rewrite (bind_Return _ _ _ _ _ Hpre). simpl.
  unfold_M. now destruct (entry obj strict rootKey key f h).
Qed.

(** An error of the entry that is reached is the error of the level. *)
Lemma walk_throws_at_entry (schema : Schema) (obj : Value) (strict : bool)
    (rootKey : option string) (h h' : Heap) pre key f post (e : Exn) :
  reaches_entry schema obj strict rootKey h pre key f post ->
  entry obj strict rootKey key f h = Throw e h' ->
  _objectFieldChecker schema obj strict rootKey h = Throw e h'.
Proof.
  intros Hreach He. rewrite (walk_at_entry _ _ _ _ _ _ _ _ _ Hreach).
  now apply bind_Throw.
Qed.

(** ** The top-level entry point *)

Lemma validate_Throw (schema : Schema) (obj : Value) (options : ValidateOptions)
    (h h' : Heap) (error : Exn) :
  _objectFieldChecker schema obj (Validator.finalOptions_strict options)
    (rootKey options) h = Throw error h' ->
  Validator.validate schema obj options h = Throw (rethrown error) h'.
Proof.
  intros Hw. unfold Validator.validate, _checkObject. rewrite Hw.
  now destruct error.
Qed.

Lemma validate_Return (schema : Schema) (obj : Value) (options : ValidateOptions)
    (h h' : Heap) (v : Value) :
  _objectFieldChecker schema obj (Validator.finalOptions_strict options)
    (rootKey options) h = Return v h' ->
  Validator.validate schema obj options h = Return v h'.
Proof.
  intros Hw. unfold Validator.validate, _checkObject. now rewrite Hw.
Qed.

(** ** The strict check *)

Lemma includes_In (expectedKeys : list string) (key : string) :
  includes expectedKeys key = true <-> In key expectedKeys.
Proof.
  unfold includes. rewrite existsb_exists. split.
  - intros (k & Hk & Heq). apply String.eqb_eq in Heq. now subst.
  - intros Hk. exists key. split; [exact Hk|apply String.eqb_refl].
Qed.

(** The first key of the input, in its enumeration order, that the schema
    does not declare is the one the strict check reports, as it stands. *)
Lemma strict_check_first_unexpected (schema : Schema) (obj : Value) (h : Heap)
    (pre : list string) (k0 : string) (post : list string) :
  Object_keys h obj = Some (pre ++ k0 :: post) ->
  Forall (fun k => In k (map fst (entries schema))) pre ->
  ~ In k0 (map fst (entries schema)) ->
  strict_check schema obj true h = Throw (Classified (UnexpectedFieldError k0)) h.
Proof.
  intros Hkeys Hpre Hk0. unfold strict_check. rewrite Hkeys.
  rewrite List.filter_app. simpl.
  assert (Hnone : List.filter
            (fun key => negb (includes (map fst (entries schema)) key)) pre = []).
  { clear Hkeys. induction Hpre as [|k pre Hk _ IH]; simpl; [reflexivity|].
    apply includes_In in Hk. rewrite Hk. exact IH. }
  rewrite Hnone. simpl.
  destruct (includes (map fst (entries schema)) k0) eqn:Hin.
  - exfalso. apply Hk0. now apply includes_In.
  - reflexivity.
Qed.

Lemma strict_check_off (schema : Schema) (obj : Value) (h : Heap) :
  strict_check schema obj false h = Return tt h.
Proof. reflexivity. Qed.

Lemma strict_check_null (schema : Schema) (obj : Value) (h : Heap) :
  obj = VNull \/ obj = VUndefined ->
  strict_check schema obj true h =
  Throw (TypeError "Cannot convert undefined or null to object") h.
Proof. now intros [-> | ->]. Qed.

(** A failing strict check ends the level before any entry is looked at. *)
Lemma walk_throws_at_strict_check (schema : Schema) (obj : Value) (strict : bool)
    (rootKey : option string) (h h' : Heap) (e : Exn) :
  strict_check schema obj strict h = Throw e h' ->
  _objectFieldChecker schema obj strict rootKey h = Throw e h'.
Proof.
  intros Hs. rewrite _objectFieldChecker_eq. now apply bind_Throw.
Qed.

(** ** The array loop *)

Section Array_loop.

Variable obj : Value.
Variable next : Value -> nat -> M Value.
Variable h : Heap.
Hypothesis next_returns : forall v i, returns_at (next v i) v h.

Local Abbreviation elems := (elements h obj).
Local Abbreviation elem i := (nth i (elements h obj) VUndefined).

Lemma _isArray_loop_step (n i : nat) :
  i < length elems ->
  _isArray_loop (S n) obj next i h =
  match next (elem i) i h with
  | Return _ _ => _isArray_loop n obj next (S i) h
  | Throw e h' => Throw e h'
  end.
Proof.
  intros Hi. simpl. unfold_M. unfold read_length, read_index, write_index.
  apply Nat.ltb_lt in Hi as Hlt. rewrite Hlt.
  pose proof (next_returns (elem i) i) as Hn. unfold returns_at in Hn.
  destruct (next (elem i) i h) as [v h'|e h']; [|reflexivity].
  destruct Hn as [-> ->]. now rewrite store_same.
Qed.

Lemma _isArray_loop_stop (n i : nat) :
  length elems <= i -> _isArray_loop n obj next i h = Return tt h.
Proof.
  intros Hi. destruct n as [|n]; [reflexivity|]. simpl.
  unfold_M. unfold read_length.
  apply Nat.ltb_ge in Hi. now rewrite Hi.
Qed.

(** The bound [n] is not what ends the loop: from the length on entry
    onwards, a larger bound gives the same run. *)
Lemma _isArray_loop_runs_to_the_end (n i : nat) :
  length elems <= i + n ->
  _isArray_loop (S n) obj next i h = _isArray_loop n obj next i h.
Proof.
  revert i. induction n as [|n IH]; intros i Hn.
  - rewrite !_isArray_loop_stop by lia. reflexivity.
  - destruct (Nat.lt_ge_cases i (length elems)) as [Hi|Hi].
    + rewrite (_isArray_loop_step (S n) i), (_isArray_loop_step n i) by exact Hi.
      destruct (next (elem i) i h); [|reflexivity]. apply IH. lia.
    + rewrite !_isArray_loop_stop by exact Hi. reflexivity.
Qed.

(** Elements are handed to [next] in index order; the loop returns when
    every element from [i] on passes. *)
Lemma _isArray_loop_passes (n i : nat) :
  (forall j, i <= j < length elems -> next (elem j) j h = Return (elem j) h) ->
  _isArray_loop n obj next i h = Return tt h.
Proof.
  revert i. induction n as [|n IH]; intros i Hpass; [reflexivity|].
  destruct (Nat.lt_ge_cases i (length elems)) as [Hi|Hi].
  - rewrite _isArray_loop_step by exact Hi. rewrite Hpass by lia.
    apply IH. intros j Hj. apply Hpass. lia.
  - now apply _isArray_loop_stop.
Qed.

(** The loop stops at the first element that [next] rejects, with the
    error of that element. *)
Lemma _isArray_loop_first_error (n i j : nat) (e : Exn) :
  i <= j < length elems -> j < i + n ->
  (forall k, i <= k < j -> next (elem k) k h = Return (elem k) h) ->
  next (elem j) j h = Throw e h ->
  _isArray_loop n obj next i h = Throw e h.
Proof.
  revert i. induction n as [|n IH]; intros i Hj Hn Hpass He; [lia|].
  rewrite _isArray_loop_step by lia.
  destruct (Nat.eq_dec i j) as [->|Hne].
  - now rewrite He.
  - rewrite Hpass by lia. apply IH; [lia|lia| |exact He].
    intros k Hk. apply Hpass. lia.
Qed.

Lemma _isArray_passes (key : string) :
  isArray h obj = true ->
  (forall j, j < length elems -> next (elem j) j h = Return (elem j) h) ->
  _isArray obj key next h = Return obj h.
Proof.
  intros Harr Hpass. unfold _isArray. unfold_M. unfold test_isArray, read_length.
  rewrite Harr. simpl.
  rewrite _isArray_loop_passes; [reflexivity|].
  intros j Hj. apply Hpass. lia.
Qed.

Lemma _isArray_first_error (key : string) (j : nat) (e : Exn) :
  isArray h obj = true ->
  j < length elems ->
  (forall k, k < j -> next (elem k) k h = Return (elem k) h) ->
  next (elem j) j h = Throw e h ->
  _isArray obj key next h = Throw e h.
Proof.
  intros Harr Hj Hpass He. unfold _isArray. unfold_M.
  unfold test_isArray, read_length. rewrite Harr. simpl.
  rewrite (_isArray_loop_first_error _ 0 j e); try done; try lia.
  intros k Hk. apply Hpass. lia.
Qed.

Lemma _isArray_not_array (key : string) :
  isArray h obj = false ->
  _isArray obj key next h = Throw (thrown_mismatch h key Type_.Array obj) h.
Proof.
  intros Harr. unfold _isArray.
  rewrite (bind_Return _ _ h h (isArray h obj)) by reflexivity.
  rewrite Harr. apply throw_new_FieldTypeMismatchError.
Qed.

End Array_loop.

(** ** One entry, by kind *)

Lemma entry_skipped (obj : Value) (strict : bool) (rootKey : option string)
    (key : string) (f : FieldSpec) (h : Heap) :
  skipped f (get_prop h obj key) = true ->
  entry obj strict rootKey key f h = Return tt h.
Proof.
  intros Hs. unfold entry, entry_with. unfold_M. unfold read_prop. now rewrite Hs.
Qed.

Lemma entry_field (obj : Value) (strict : bool) (rootKey : option string)
    (key : string) (f : FieldSpec) (h : Heap) :
  skipped f (get_prop h obj key) = false ->
  is_field_kind (type f) = true ->
  entry obj strict rootKey key f h =
  (_fieldChecker (get_prop h obj key) (qualify rootKey key) (type f) strict
     (schema f);; ret tt) h.
Proof.
  intros Hs Hk. unfold entry, entry_with. unfold_M. unfold read_prop.
  rewrite Hs. now destruct (type f).
Qed.

Lemma entry_array (obj : Value) (strict : bool) (rootKey : option string)
    (key : string) (f : FieldSpec) (h : Heap) :
  skipped f (get_prop h obj key) = false ->
  type f = Type_.Array ->
  entry obj strict rootKey key f h =
  (_isArray (get_prop h obj key) (qualify rootKey key)
     (_elementChecker f strict (qualify rootKey key));; ret tt) h.
Proof.
  intros Hs Hk. unfold entry, entry_with. unfold_M. unfold read_prop.
  rewrite Hs, Hk. reflexivity.
Qed.

Lemma entry_custom (obj : Value) (strict : bool) (rootKey : option string)
    (key : string) (f : FieldSpec) (r : Resolver) (h : Heap) :
  skipped f (get_prop h obj key) = false ->
  type f = Type_.Custom ->
  resolver f = Some r ->
  entry obj strict rootKey key f h =
  match r h (get_prop h obj key) (qualify rootKey key) with
  | inl e => Throw e h
  | inr result =>
      if strict_eq result (get_prop h obj key) then Return tt h
      else Throw (Error ("Custom resolver for key " +:+ key +:+
                    " did not return the origin value, which is not allowed")) h
  end.
Proof.
  intros Hs Hk Hr. unfold entry, entry_with. unfold_M.
  unfold read_prop, call_resolver. rewrite Hs, Hk, Hr.
  destruct (r h _ _) as [e|result]; [reflexivity|].
  now destruct (strict_eq _ _).
Qed.

Lemma _fieldChecker_mismatch (value : Value) (key : string) (t : Type_.t)
    (strict : bool) (sch : option Schema) (h : Heap) :
  is_field_kind t = true ->
  (t = Type_.Object -> sch <> None) ->
  typeof value <> typeof_tag t ->
  _fieldChecker value key t strict sch h =
  Throw (thrown_mismatch h key t value) h.
Proof.
  intros Hk Hsch Hty. unfold _fieldChecker, _fieldChecker_with.
  destruct t; try discriminate; simpl in Hty.
  - unfold _isString. destruct (String.eqb_spec (typeof value) "string"); [done|].
    apply throw_new_FieldTypeMismatchError.
  - unfold _isNumber. destruct (String.eqb_spec (typeof value) "number"); [done|].
    apply throw_new_FieldTypeMismatchError.
  - unfold _isBool. destruct (String.eqb_spec (typeof value) "boolean"); [done|].
    apply throw_new_FieldTypeMismatchError.
  - destruct sch as [s|]; [|now destruct Hsch].
    unfold _isObject. destruct (String.eqb_spec (typeof value) "object"); [done|].
    apply throw_new_FieldTypeMismatchError.
Qed.

Lemma _fieldChecker_primitive (value : Value) (key : string) (t : Type_.t)
    (strict : bool) (sch : option Schema) (h : Heap) :
  is_field_kind t = true -> t <> Type_.Object ->
  typeof value = typeof_tag t ->
  _fieldChecker value key t strict sch h = Return value h.
Proof.
  intros Hk Hobj Hty. unfold _fieldChecker, _fieldChecker_with.
  destruct t; try discriminate; try done; simpl in Hty.
  - unfold _isString. now rewrite Hty.
  - unfold _isNumber. now rewrite Hty.
  - unfold _isBool. now rewrite Hty.
Qed.

Lemma _fieldChecker_object (value : Value) (key : string) (strict : bool)
    (s : Schema) (h : Heap) :
  typeof value = "object" ->
  _fieldChecker value key Type_.Object strict (Some s) h =
  _objectFieldChecker s value strict (Some key) h.
Proof.
  intros Hty. unfold _fieldChecker, _fieldChecker_with, _isObject.
  now rewrite Hty.
Qed.

(** [_fieldChecker] has no case for the kinds [Array] and [Custom]. *)
Lemma _fieldChecker_unknown (value : Value) (key : string) (t : Type_.t)
    (strict : bool) (sch : option Schema) (h : Heap) :
  is_field_kind t = false ->
  _fieldChecker value key t strict sch h =
  Throw (Error ("Unknown type for key " +:+ key)) h.
Proof. now destruct t. Qed.

(** ** Nested calls *)

Lemma _elementChecker_returns (f : FieldSpec) (strict : bool) (_key : string)
    (h : Heap) (v : Value) (i : nat) :
  returns_at (_elementChecker f strict _key v i) v h.
Proof.
  unfold _elementChecker, element_checker.
  destruct (field_of f) as [fld|]; [|apply returns_at_throw].
  apply _fieldChecker_returns.
Qed.

Lemma Throw_store {A : Type} (m : M A) (a : A) (h h' : Heap) (e : Exn) :
  returns_at m a h -> m h = Throw e h' -> h' = h.
Proof. unfold returns_at. intros Hr Hm. now rewrite Hm in Hr. Qed.

(** Nested calls neither catch nor wrap: an exception leaving a nested
    call, at whatever depth, leaves the outermost call as it is. *)
Theorem calls_propagate (strict : bool) (h : Heap) s o r p s' o' r' :
  calls strict h s o r p s' o' r' ->
  forall e h',
    _objectFieldChecker s' o' strict r' h = Throw e h' ->
    _objectFieldChecker s o strict r h = Throw e h'.
Proof.
  induction 1 as
    [s o r
    |s o r pre key f post s1 p s' o' r' Hreach Hskip Hty Hsch Hobj _ IH
    |s o r pre key f post fld s1 i p s' o' r' Hreach Hskip Hty Hfld Htf Hsch
       Harr Hi Hbefore Hobj _ IH];
    intros e h' He.
  - exact He.
  - apply IH in He.
    apply (walk_throws_at_entry _ _ _ _ _ _ _ _ _ _ _ Hreach).
    rewrite entry_field by (try assumption; now rewrite Hty).
    apply bind_Throw. rewrite Hty, Hsch.
    now rewrite _fieldChecker_object.
  - apply IH in He.
    assert (h' = h) as ->
      by (eapply Throw_store; [apply _objectFieldChecker_returns|exact He]).
    apply (walk_throws_at_entry _ _ _ _ _ _ _ _ _ _ _ Hreach).
    rewrite entry_array by assumption. apply bind_Throw.
    apply _isArray_first_error with (j := i); try assumption.
    + intros v k. apply _elementChecker_returns.
    + unfold _elementChecker, element_checker. rewrite Hfld, Htf, Hsch.
      fold _fieldChecker. now rewrite _fieldChecker_object.
Qed.

(** ** Key paths *)

Lemma append_cons (c : Ascii.ascii) (s t : string) :
  String c s +:+ t = String c (s +:+ t).
Proof. reflexivity. Qed.

Lemma append_nil_l (s : string) : "" +:+ s = s.
Proof. reflexivity. Qed.

Lemma append_nil_r (s : string) : s +:+ "" = s.
Proof.
  induction s as [|c s IH]; [reflexivity|]. now rewrite append_cons, IH.
Qed.

Lemma append_assoc (s t u : string) : (s +:+ t) +:+ u = s +:+ (t +:+ u).
Proof.
  induction s as [|c s IH]; [reflexivity|]. now rewrite !append_cons, IH.
Qed.

Lemma chain_app (p q : list seg) : chain (p ++ q) = chain p +:+ chain q.
Proof.
  induction p as [|[key|i] p IH]; simpl.
  - reflexivity.
  - now rewrite IH, !append_assoc.
  - now rewrite IH, !append_assoc.
Qed.

Lemma qualify_nonempty (rootKey : option string) (key : string) :
  key <> "" -> exists c s, qualify rootKey key = String c s.
Proof.
  intros Hk. unfold qualify. destruct rootKey as [[|c r]|].
  - destruct key as [|c s]; [done|]. now exists c, s.
  - simpl. rewrite append_cons. eauto.
  - destruct key as [|c s]; [done|]. now exists c, s.
Qed.

Lemma qualify_key_path (rootKey : option string) (key : string) :
  qualify rootKey key = key_path rootKey [Name key].
Proof.
  unfold qualify, key_path. destruct rootKey as [[|c r]|]; simpl.
  - now rewrite append_nil_r.
  - now rewrite append_nil_r.
  - now rewrite append_nil_r.
Qed.

(** Extending a path by a field name or by an index, as the code does
    with [`${rootKey}.${key}`] and [`${_key}[${index}]`]. *)
Lemma key_path_under_name (rootKey : option string) (key : string)
    (p : list seg) :
  key <> "" ->
  key_path (Some (qualify rootKey key)) p = key_path rootKey (Name key :: p).
Proof.
  intros Hk. destruct (qualify_nonempty rootKey key Hk) as (c & s & Hq).
  unfold key_path at 1. rewrite Hq, <- Hq.
  unfold qualify, key_path. destruct rootKey as [[|c' r]|]; simpl.
  - reflexivity.
  - now rewrite !append_assoc.
  - reflexivity.
Qed.

Lemma key_path_under_index (rootKey : option string) (key : string) (i : nat)
    (p : list seg) :
  key <> "" ->
  key_path (Some (indexed (qualify rootKey key) i)) p =
  key_path rootKey (Name key :: Index i :: p).
Proof.
  intros Hk. destruct (qualify_nonempty rootKey key Hk) as (c & s & Hq).
  unfold key_path at 1, indexed. rewrite Hq, append_cons, <- append_cons, <- Hq.
  unfold qualify, key_path. destruct rootKey as [[|c' r]|]; simpl.
  - now rewrite !append_assoc.
  - now rewrite !append_assoc.
  - now rewrite !append_assoc.
Qed.

Lemma level_key_under_name (rootKey : option string) (key : string)
    (p : list seg) :
  key <> "" ->
  level_key (Some (qualify rootKey key)) p = level_key rootKey (Name key :: p).
Proof.
  intros Hk. destruct p as [|s p].
  - simpl. now rewrite qualify_key_path.
  - unfold level_key. now rewrite key_path_under_name.
Qed.

Lemma level_key_under_index (rootKey : option string) (key : string) (i : nat)
    (p : list seg) :
  key <> "" ->
  level_key (Some (indexed (qualify rootKey key) i)) p =
  level_key rootKey (Name key :: Index i :: p).
Proof.
  intros Hk. destruct p as [|s p].
  - simpl. rewrite <- key_path_under_index by exact Hk.
    destruct (qualify_nonempty rootKey key Hk) as (c & s & Hq).
    unfold key_path, indexed. rewrite Hq, append_cons. simpl.
    now rewrite append_nil_r.
  - unfold level_key. now rewrite key_path_under_index.
Qed.

(** The prefix a nested call receives is the key path of the object it
    checks. *)
Lemma calls_level_key (strict : bool) (h : Heap) s o r p s' o' r' :
  calls strict h s o r p s' o' r' ->
  Forall nonempty_name p ->
  r' = level_key r p.
Proof.
  induction 1 as
    [s o r
    |s o r pre key f post s1 p s' o' r' _ _ _ _ _ _ IH
    |s o r pre key f post fld s1 i p s' o' r' _ _ _ _ _ _ _ _ _ _ _ IH];
    intros Hp.
  - reflexivity.
  - apply Forall_cons in Hp as [Hk Hp]. simpl in Hk.
    rewrite IH by exact Hp. now apply level_key_under_name.
  - apply Forall_cons in Hp as [Hk Hp]. apply Forall_cons in Hp as [_ Hp].
    simpl in Hk. rewrite IH by exact Hp. now apply level_key_under_index.
Qed.

(** The key the code gives an entry, and an element of an array entry. *)
Lemma qualify_level_key (rootKey : option string) (p : list seg) (key : string) :
  Forall nonempty_name p ->
  qualify (level_key rootKey p) key = key_path rootKey (p ++ [Name key]).
Proof.
  intros Hp. destruct p as [|s p].
  - apply qualify_key_path.
  - unfold level_key.
    assert (Hne : exists c t, key_path rootKey (s :: p) = String c t).
    { apply Forall_cons in Hp as [Hs _].
      unfold key_path. destruct rootKey as [[|c r]|]; destruct s as [k|i];
        simpl in *; try (destruct k as [|c' k]; [done|]);
        rewrite ?append_cons; eauto. }
    destruct Hne as (c & t & Hkp). unfold qualify. rewrite Hkp. simpl.
    rewrite <- Hkp. unfold key_path.
    destruct rootKey as [[|c' r]|]; destruct s as [k|i]; simpl;
      rewrite ?chain_app; simpl; now rewrite ?append_assoc, ?append_nil_r.
Qed.

Lemma indexed_key_path (rootKey : option string) (p : list seg) (key : string)
    (i : nat) :
  Forall nonempty_name p ->
  indexed (qualify (level_key rootKey p) key) i =
  key_path rootKey (p ++ [Name key; Index i]).
Proof.
  intros Hp. rewrite qualify_level_key by exact Hp. unfold indexed, key_path.
  destruct rootKey as [[|c r]|]; destruct p as [|[k|j] p]; simpl;
    rewrite ?chain_app; simpl; now rewrite ?append_assoc, ?append_nil_r.
Qed.

(** ** Kind checks that fail *)

Lemma fails_kind_undefined (h : Heap) (t : Type_.t) : fails_kind h t VUndefined.
Proof. now destruct t. Qed.

Lemma skipped_required (f : FieldSpec) (v : Value) :
  fieldOptions_optional f <> Some true -> skipped f v = false.
Proof. intros Hreq. unfold skipped. now rewrite bool_decide_eq_false_2. Qed.

Lemma skipped_present (f : FieldSpec) (v : Value) :
  v <> VUndefined -> skipped f v = false.
Proof.
  intros Hv. unfold skipped.
  destruct v as [| | |[|z]| |]; try done; apply andb_false_r.
Qed.

Lemma entry_kind_mismatch (obj : Value) (strict : bool)
    (rootKey : option string) (key : string) (f : FieldSpec) (h : Heap) :
  skipped f (get_prop h obj key) = false ->
  kind_checked f ->
  fails_kind h (type f) (get_prop h obj key) ->
  entry obj strict rootKey key f h =
  Throw (thrown_mismatch h (qualify rootKey key) (type f) (get_prop h obj key)) h.
Proof.
  intros Hs [Hcustom Hsch] Hfail.
  destruct (is_field_kind (type f)) eqn:Hk.
  - rewrite entry_field by assumption.
    apply bind_Throw. apply _fieldChecker_mismatch; try assumption.
    now destruct (type f).
  - assert (Ha : type f = Type_.Array) by (now destruct (type f)).
    rewrite entry_array by assumption.
    apply bind_Throw. rewrite Ha in *. now apply _isArray_not_array.
Qed.

(** The same for an element of an array entry. *)
Lemma entry_element_mismatch (obj : Value) (strict : bool)
    (rootKey : option string) (key : string) (f fld : FieldSpec) (h : Heap)
    (i : nat) :
  let arr := get_prop h obj key in
  let _key := qualify rootKey key in
  skipped f arr = false ->
  type f = Type_.Array ->
  field_of f = Some fld ->
  is_field_kind (type fld) = true ->
  (type fld = Type_.Object -> schema fld <> None) ->
  isArray h arr = true ->
  i < length (elements h arr) ->
  (forall k, k < i ->
     _elementChecker f strict _key (nth k (elements h arr) VUndefined) k h =
     Return (nth k (elements h arr) VUndefined) h) ->
  typeof (nth i (elements h arr) VUndefined) <> typeof_tag (type fld) ->
  entry obj strict rootKey key f h =
  Throw (thrown_mismatch h (indexed _key i) (type fld)
           (nth i (elements h arr) VUndefined)) h.
Proof.
  intros arr _key Hs Hty Hfld Hk Hsch Harr Hi Hbefore Hfail.
  rewrite entry_array by assumption. apply bind_Throw.
  apply _isArray_first_error with (j := i); try assumption.
  - intros v k. apply _elementChecker_returns.
  - unfold _elementChecker, element_checker. rewrite Hfld.
    fold _fieldChecker. now apply _fieldChecker_mismatch.
Qed.

(** A required field whose value is absent fails the kind check of its
    declared kind, with [undefined] as the offending value. *)
Lemma entry_absent_required (obj : Value) (strict : bool)
    (rootKey : option string) (key : string) (f : FieldSpec) (h : Heap) :
  get_prop h obj key = VUndefined ->
  fieldOptions_optional f <> Some true ->
  kind_checked f ->
  entry obj strict rootKey key f h =
  Throw (Classified
           (FieldTypeMismatchError (qualify rootKey key) (type f) VUndefined)) h.
Proof.
  intros Hv Hreq Hkind.
  rewrite entry_kind_mismatch; try assumption.
  - rewrite Hv. now rewrite thrown_mismatch_primitive.
  - now apply skipped_required.
  - rewrite Hv. apply fails_kind_undefined.
Qed.

Lemma for_entries_pass (body : string -> FieldSpec -> M unit)
    (es : list (string * FieldSpec)) (h : Heap) :
  Forall (fun kf => body (fst kf) (snd kf) h = Return tt h) es ->
  for_entries body es h = Return tt h.
Proof.
  induction 1 as [|[k f] rest Hkf _ IH]; simpl; [reflexivity|].
  simpl in Hkf. now rewrite (bind_Return _ _ _ _ _ Hkf).
Qed.

(** ** A [null] or [undefined] input *)

Lemma get_prop_null (h : Heap) (obj : Value) (key : string) :
  obj = VNull \/ obj = VUndefined -> get_prop h obj key = VUndefined.
Proof. now intros [-> | ->]. Qed.

Lemma skipped_optional_absent (f : FieldSpec) :
  fieldOptions_optional f = Some true -> skipped f VUndefined = true.
Proof. intros Ho. unfold skipped. now rewrite bool_decide_eq_true_2. Qed.

(** ** Where exceptions come from *)

Lemma resolvers_in_schema_Forall (R : Resolver -> Prop)
    (es : list (string * FieldSpec)) :
  resolvers_in_schema R (MkSchema es) <->
  Forall (fun kf => on_option R (resolver (snd kf)) /\
                    resolvers_in_field R (snd kf)) es.
Proof.
  simpl. induction es as [|[k f] rest IH].
  - split; [constructor|done].
  - rewrite Forall_cons. simpl. now rewrite IH.
Qed.

Lemma for_entries_Throw (body : string -> FieldSpec -> M unit)
    (es : list (string * FieldSpec)) (h h' : Heap) (e : Exn) :
  (forall k f, returns_at (body k f) tt h) ->
  for_entries body es h = Throw e h' ->
  exists k f, In (k, f) es /\ body k f h = Throw e h'.
Proof.
  intros Hret. induction es as [|[k f] rest IH]; simpl; [discriminate|].
  unfold_M. pose proof (Hret k f) as Hkf. unfold returns_at in Hkf.
  destruct (body k f h) as [[] h1|e1 h1] eqn:Hb.
  - destruct Hkf as [_ ->]. intros Hrest.
    destruct (IH Hrest) as (k' & f' & Hin & Hthrow).
    exists k', f'. split; [now right|exact Hthrow].
  - intros [= -> ->]. exists k, f. split; [now left|exact Hb].
Qed.

Section Array_loop_errors.

Variable obj : Value.
Variable next : Value -> nat -> M Value.
Variable h : Heap.
Hypothesis next_returns : forall v i, returns_at (next v i) v h.

Lemma _isArray_loop_Throw (n i : nat) (e : Exn) (h' : Heap) :
  _isArray_loop n obj next i h = Throw e h' ->
  exists j, j < length (elements h obj) /\
            next (nth j (elements h obj) VUndefined) j h = Throw e h'.
Proof.
  revert i. induction n as [|n IH]; intros i; [discriminate|].
  destruct (Nat.lt_ge_cases i (length (elements h obj))) as [Hi|Hi].
  - rewrite (_isArray_loop_step obj next h next_returns n i Hi).
    destruct (next _ i h) as [v h1|e1 h1] eqn:Hn.
    + apply IH.
    + intros [= -> ->]. now exists i.
  - now rewrite _isArray_loop_stop.
Qed.

Lemma _isArray_Throw (key : string) (e : Exn) (h' : Heap) :
  _isArray obj key next h = Throw e h' ->
  e = thrown_mismatch h key Type_.Array obj \/
  exists j, j < length (elements h obj) /\
            next (nth j (elements h obj) VUndefined) j h = Throw e h'.
Proof.
  destruct (isArray h obj) eqn:Harr.
  - unfold _isArray. unfold_M. unfold test_isArray, read_length.
    rewrite Harr. simpl.
    destruct (_isArray_loop _ obj next 0 h) as [[] h1|e1 h1] eqn:Hl; [discriminate|].
    intros [= -> ->]. right. now apply _isArray_loop_Throw in Hl.
  - rewrite _isArray_not_array by exact Harr. intros [= <- _]. now left.
Qed.

End Array_loop_errors.

Section Origin.

(** [R] describes what the resolvers throw. *)
Variable R : Exn -> Prop.

Lemma strict_check_Throw (schema : Schema) (obj : Value) (strict : bool)
    (h h' : Heap) (e : Exn) :
  strict_check schema obj strict h = Throw e h' -> engine_raised e.
Proof.
  unfold strict_check. destruct strict; [|discriminate].
  destruct (Object_keys h obj) as [keys|]; [|now intros [= <- _]].
  destruct (List.filter _ keys); [discriminate|now intros [= <- _]].
Qed.

Lemma _fieldChecker_origin (value : Value) (key : string) (t : Type_.t)
    (strict : bool) (sch : option Schema) (h h' : Heap) (e : Exn) :
  on_option (origin R strict h) sch ->
  _fieldChecker value key t strict sch h = Throw e h' ->
  engine_raised e \/ R e.
Proof.
  intros Hsch. unfold _fieldChecker, _fieldChecker_with.
  destruct t.
  - unfold _isString. destruct (negb _); [|discriminate].
    rewrite throw_new_FieldTypeMismatchError.
    intros [= <- _]. left. apply thrown_mismatch_engine_raised.
  - unfold _isNumber. destruct (negb _); [|discriminate].
    rewrite throw_new_FieldTypeMismatchError.
    intros [= <- _]. left. apply thrown_mismatch_engine_raised.
  - unfold _isBool. destruct (negb _); [|discriminate].
    rewrite throw_new_FieldTypeMismatchError.
    intros [= <- _]. left. apply thrown_mismatch_engine_raised.
  - destruct sch as [s|]; [|intros [= <- _]; now left].
    unfold _isObject. destruct (negb _); [|apply Hsch].
    rewrite throw_new_FieldTypeMismatchError.
    intros [= <- _]. left. apply thrown_mismatch_engine_raised.
  - intros [= <- _]. now left.
  - intros [= <- _]. now left.
Qed.

Lemma entry_origin (obj : Value) (strict : bool) (rootKey : option string)
    (key : string) (f : FieldSpec) (h h' : Heap) (e : Exn) :
  on_option (throws_only R) (resolver f) ->
  on_option (origin R strict h) (schema f) ->
  on_option (fun fld => on_option (origin R strict h) (schema fld)) (field_of f) ->
  entry obj strict rootKey key f h = Throw e h' ->
  engine_raised e \/ R e.
Proof.
  intros Hres Hsch Hfld.
  destruct (skipped f (get_prop h obj key)) eqn:Hskip.
  { now rewrite entry_skipped. }
  destruct (type f) eqn:Hty.
  1-4: rewrite entry_field by (try assumption; now rewrite Hty);
       unfold_M;
       destruct (_fieldChecker _ _ _ _ _ h) as [v h1|e1 h1] eqn:Hc;
         [discriminate|];
       intros [= <- <-]; now apply _fieldChecker_origin in Hc.
  - rewrite entry_array by assumption. unfold_M.
    destruct (_isArray _ _ _ h) as [v h1|e1 h1] eqn:Hc; [discriminate|].
    intros [= <- <-].
    apply _isArray_Throw in Hc; [|intros v i; apply _elementChecker_returns].
    destruct Hc as [->|(j & _ & Hj)];
      [left; apply thrown_mismatch_engine_raised|].
    unfold _elementChecker, element_checker in Hj.
    destruct (field_of f) as [fld|]; [|injection Hj as <- _; now left].
    fold _fieldChecker in Hj. now apply _fieldChecker_origin in Hj.
  - destruct (resolver f) as [r|] eqn:Hr.
    + rewrite (entry_custom _ _ _ _ _ r) by assumption.
      destruct (r h _ _) as [e1|result] eqn:Hcall.
      * intros [= <- _]. right. eapply Hres, Hcall.
      * destruct (strict_eq _ _); [discriminate|].
        intros [= <- _]. now left.
    + unfold entry, entry_with. unfold_M. unfold read_prop.
      rewrite Hskip, Hty, Hr. intros [= <- _]. now left.
Qed.

(** Every exception that leaves a walk was constructed by the engine or
    thrown by a resolver. *)
Theorem walk_origin (s : Schema) (strict : bool) (h : Heap) :
  resolvers_in_schema (throws_only R) s -> origin R strict h s.
Proof.
  revert s.
  apply (Schema_mutind
    (fun f =>
       resolvers_in_field (throws_only R) f ->
       on_option (origin R strict h) (schema f) /\
       on_option (fun fld => on_option (origin R strict h) (schema fld))
         (field_of f))
    (fun s => resolvers_in_schema (throws_only R) s -> origin R strict h s)).
  - intros o t sch r fld Hs Hf [Hrs Hrf]. simpl. split.
    + destruct sch as [s|]; [|exact I]. now apply Hs.
    + destruct fld as [fld|]; [|exact I]. simpl in *. now apply Hf.
  - intros es Hes Hres obj rootKey e h'.
    apply resolvers_in_schema_Forall in Hres.
    rewrite _objectFieldChecker_eq. unfold_M.
    destruct (strict_check _ obj strict h) as [[] h1|e1 h1] eqn:Hstrict.
    + pose proof (strict_check_returns (MkSchema es) obj strict h) as Hr.
      unfold returns_at in Hr. rewrite Hstrict in Hr. destruct Hr as [_ ->].
      destruct (for_entries _ _ h) as [[] h2|e2 h2] eqn:Hloop; [discriminate|].
      intros [= <- <-].
      apply for_entries_Throw in Hloop; [|intros k f; apply entry_returns].
      destruct Hloop as (k & f & Hin & Hthrow). simpl in Hin.
      apply list_elem_of_In in Hin.
      rewrite Forall_forall in Hes, Hres.
      specialize (Hes _ Hin). specialize (Hres _ Hin). simpl in *.
      destruct Hres as [Hr1 Hr2]. destruct (Hes Hr2) as [Hs1 Hs2].
      eapply entry_origin; eassumption.
    + intros [= <- _]. left. eapply strict_check_Throw, Hstrict.
Qed.

End Origin.

(** ** Round trip *)

Lemma elements_in_schema_Forall (es : list (string * FieldSpec)) :
  elements_in_schema (MkSchema es) <->
  Forall (fun kf => elements_in_field (snd kf)) es.
Proof.
  simpl. induction es as [|[k f] rest IH].
  - split; [constructor|done].
  - rewrite Forall_cons. simpl. now rewrite IH.
Qed.

Lemma satisfies_schema_Forall (h : Heap) (es : list (string * FieldSpec))
    (obj : Value) (rootKey : option string) :
  satisfies_schema h (MkSchema es) obj rootKey <->
  Forall (fun kf =>
            (fieldOptions_optional (snd kf) = Some true /\
             get_prop h obj (fst kf) = VUndefined) \/
            satisfies_field h (snd kf) (qualify rootKey (fst kf))
              (get_prop h obj (fst kf))) es.
Proof.
  simpl. induction es as [|[k f] rest IH].
  - split; [constructor|done].
  - rewrite Forall_cons. simpl. now rewrite IH.
Qed.

Lemma is_Object_typeof (h : Heap) (v : Value) :
  is_Object h v -> typeof v = "object".
Proof. now intros (l & props & -> & _). Qed.

(** Round trip, where the element kinds are handled: an object that
    satisfies the schema is returned by the walk, the very same value in an
    unchanged store. *)
Theorem walk_returns_satisfying_object (h : Heap) (s : Schema) :
  elements_in_schema s ->
  forall obj rootKey,
    satisfies_schema h s obj rootKey ->
    _objectFieldChecker s obj false rootKey h = Return obj h.
Proof.
  revert s.
  apply (Schema_mutind
    (fun f =>
       elements_in_field f ->
       (forall key v,
          satisfies_field h f key v -> is_field_kind (type f) = true ->
          _fieldChecker v key (type f) false (schema f) h = Return v h) /\
       (forall key v,
          satisfies_field h f key v -> type f = Type_.Array ->
          _isArray v key (_elementChecker f false key) h = Return v h))
    (fun s =>
       elements_in_schema s ->
       forall obj rootKey,
         satisfies_schema h s obj rootKey ->
         _objectFieldChecker s obj false rootKey h = Return obj h)).
  - intros o t sch r fld Hs Hf [Hes Hef]. split.
    + intros key v Hsat Hk. simpl in *. destruct t; try discriminate.
      * destruct Hsat as [x ->]. reflexivity.
      * destruct Hsat as [x ->]. reflexivity.
      * destruct Hsat as [x ->]. reflexivity.
      * destruct Hsat as [Hobj Hsat]. destruct sch as [s|]; [|done].
        rewrite _fieldChecker_object by now apply (is_Object_typeof h).
        now apply Hs.
    + intros key v Hsat Hty. simpl in *. subst t.
      destruct Hsat as [Harr Hsat]. destruct fld as [element|]; [|done].
      destruct Hef as [Hk Hel].
      apply _isArray_passes; [|exact Harr|].
      * intros x i. apply _elementChecker_returns.
      * intros j Hj. unfold _elementChecker, element_checker. simpl.
        fold _fieldChecker. now apply Hf; [|apply Hsat|].
  - intros es Hes Hel obj rootKey Hsat.
    apply elements_in_schema_Forall in Hel.
    apply satisfies_schema_Forall in Hsat.
    rewrite _objectFieldChecker_eq. unfold_M. simpl.
    rewrite for_entries_pass; [reflexivity|].
    rewrite Forall_forall in Hes, Hel, Hsat. apply Forall_forall.
    intros [k f] Hin. simpl.
    specialize (Hes _ Hin). specialize (Hel _ Hin). specialize (Hsat _ Hin).
    simpl in *. destruct (Hes Hel) as [Hfield Harray].
    destruct (skipped f (get_prop h obj k)) eqn:Hskip.
    { now apply entry_skipped. }
    destruct Hsat as [[Ho Hv]|Hsat].
    { rewrite Hv in Hskip. now rewrite skipped_optional_absent in Hskip. }
    destruct (type f) eqn:Hty.
    1-4: rewrite entry_field by (try assumption; now rewrite Hty);
         rewrite Hty in *;
         now rewrite (bind_Return _ _ _ _ _ (Hfield _ _ Hsat eq_refl)).
    + rewrite entry_array by assumption.
      now rewrite (bind_Return _ _ _ _ _ (Harray _ _ Hsat eq_refl)).
    + destruct f as [o t sch [r|] fld]; simpl in Hty, Hsat; subst t; [|done].
      destruct Hsat as (result & Hr & Heq).
      rewrite (entry_custom _ _ _ _ _ r) by done.
      now rewrite Hr, Heq.
Qed.

Corollary validate_returns_satisfying_object (h : Heap) (s : Schema) (v : Value) :
  elements_in_schema s ->
  satisfies h s v ->
  Validator.validate s v default_options h = Return v h.
Proof.
  intros Hel [_ Hsat]. apply validate_Return.
  now apply walk_returns_satisfying_object.
Qed.

(** ** Object literals *)

Lemma define_property_fresh {A : Type} (key : string) (value : A)
    (props : list (string * A)) :
  ~ In key (map fst props) ->
  define_property key value props = props ++ [(key, value)].
Proof.
  induction props as [|[k v] rest IH]; simpl; [reflexivity|].
  intros Hk. destruct (String.eqb_spec k key) as [->|_]; [tauto|].
  rewrite IH; [reflexivity|tauto].
Qed.

Lemma created_properties_distinct {A : Type} (literal acc : list (string * A)) :
  Forall (fun kv => fst kv <> "__proto__") literal ->
  List.NoDup (map fst (acc ++ literal)) ->
  fold_left literal_member literal acc = acc ++ literal.
Proof.
  intros Hproto. revert acc.
  induction Hproto as [|[k v] rest Hk _ IH]; intros acc Hnd; simpl.
  - now rewrite app_nil_r.
  - unfold literal_member at 2. simpl in *.
    destruct (String.eqb_spec k "__proto__") as [Heq|_]; [now destruct Hk|].
    rewrite define_property_fresh.
    + rewrite IH; rewrite <- app_assoc; [reflexivity|exact Hnd].
    + rewrite map_app in Hnd. simpl in Hnd.
      apply NoDup_remove_2 in Hnd. intros Hin. apply Hnd.
      apply in_or_app. now left.
Qed.

Lemma own_property_order_named {A : Type} (props : list (string * A)) :
  Forall (fun kv => array_index (fst kv) = None) props ->
  own_property_order props = props.
Proof.
  intros Hnone. unfold own_property_order, named_properties.
  assert (Hidx : indexed_properties props = []).
  { induction Hnone as [|kv rest Hkv _ IH]; simpl; [reflexivity|].
    now rewrite Hkv. }
  rewrite Hidx. simpl.
  induction Hnone as [|kv rest Hkv _ IH]; simpl; [reflexivity|].
  rewrite Hkv. simpl. simpl in Hidx. rewrite Hkv in Hidx. now rewrite IH.
Qed.

(** The entries of a schema written as a literal are enumerated in the
    order they are written when no key is an array index or [__proto__]
    and no key is written twice. *)
Lemma Object_literal_declaration_order (declared : list (string * FieldSpec)) :
  Forall (fun kf => plain_key (fst kf)) declared ->
  List.NoDup (map fst declared) ->
  entries (Object_literal declared) = declared.
Proof.
  intros Hplain Hnd. simpl. unfold created_properties.
  rewrite created_properties_distinct.
  - simpl. apply own_property_order_named.
    eapply Forall_impl; [exact Hplain|]. now intros kf [Hidx _].
  - eapply Forall_impl; [exact Hplain|]. now intros kf [_ Hproto].
  - exact Hnd.
Qed.

(** ** What the two departures look like in general *)

(** In strict mode, at any object level the walk reaches, the first
    undeclared key of the object is reported as it stands, whatever the
    prefix [r'] in force at that level. *)
Lemma validate_reports_unexpected_key_bare
    (top : Schema) (obj : Value) (options : ValidateOptions) (h : Heap)
    (p : list seg) (s' : Schema) (o' : Value) (r' : option string)
    (pre : list string) (k0 : string) (post : list string) :
  Validator.finalOptions_strict options = true ->
  calls true h top obj (rootKey options) p s' o' r' ->
  Object_keys h o' = Some (pre ++ k0 :: post) ->
  Forall (fun k => In k (map fst (entries s'))) pre ->
  ~ In k0 (map fst (entries s')) ->
  Validator.validate top obj options h =
    Throw (ValidationError (UnexpectedFieldError k0)) h.
Proof.
  intros Hstrict Hcalls Hkeys Hpre Hk0.
  change (ValidationError (UnexpectedFieldError k0))
    with (rethrown (Classified (UnexpectedFieldError k0))).
  apply validate_Throw. rewrite Hstrict.
  apply (calls_propagate _ _ _ _ _ _ _ _ _ Hcalls).
  apply walk_throws_at_strict_check.
  now apply strict_check_first_unexpected with (pre := pre) (post := post).
Qed.

(** An array entry whose element kind [_fieldChecker] has no case for
    (Custom, or Array) fails on its first element with the plain error
    "Unknown type for key", whatever the element and the resolver are. *)
Lemma entry_unhandled_element_kind (obj : Value) (strict : bool)
    (rootKey : option string) (key : string) (f fld : FieldSpec) (h : Heap) :
  skipped f (get_prop h obj key) = false ->
  type f = Type_.Array ->
  field_of f = Some fld ->
  is_field_kind (type fld) = false ->
  isArray h (get_prop h obj key) = true ->
  0 < length (elements h (get_prop h obj key)) ->
  entry obj strict rootKey key f h =
  Throw (Error ("Unknown type for key " +:+ indexed (qualify rootKey key) 0)) h.
Proof.
  intros Hs Hty Hfld Hk Harr Hlen.
  rewrite entry_array by assumption. apply bind_Throw.
  apply _isArray_first_error with (j := 0); try assumption.
  - intros v k. apply _elementChecker_returns.
  - intros k Hk0. lia.
  - unfold _elementChecker, element_checker. rewrite Hfld.
    fold _fieldChecker. now apply _fieldChecker_unknown.
Qed.

(** * The claims *)

(** C1 (the code departs from the claim and from its README). In strict
    mode an input key that the schema does not declare is reported by
    [validate] as an unexpected-field error, but the reported key is the
    bare input key: neither the [rootKey] option (["request.body"]) nor the
    path of the nested object (["u"]) is put in front of it. *)
Theorem C1_unexpected_key_is_reported_bare :
  Validator.validate schema_a (VRef 0) (strict_under "request.body") heap_a_extra =
    Throw (ValidationError (UnexpectedFieldError "extra")) heap_a_extra /\
  Validator.validate schema_u_age (VRef 0) strictly heap_u_age_z =
    Throw (ValidationError (UnexpectedFieldError "z")) heap_u_age_z.
Proof. split; vm_compute; reflexivity. Qed.

(** C2 (the code departs from the claim). The value of an object field is
    tested with [typeof obj !== "object"] only, which arrays and [null]
    pass: for [{ u: [] }] and for [{ u: null }] the nested schema is walked
    and validation succeeds, no type-mismatch error being raised at ["u"];
    and where the nested schema has a required field, the array [{ u: [] }]
    is reported for that nested field, at ["u.age"], with the kind Number
    of that field. *)
Theorem C2_object_field_lets_array_and_null_through :
  isArray heap_u_array (get_prop heap_u_array (VRef 0) "u") = true /\
  Validator.validate schema_u_optional (VRef 0) default_options heap_u_array =
    Return (VRef 0) heap_u_array /\
  get_prop heap_u_null (VRef 0) "u" = VNull /\
  Validator.validate schema_u_optional (VRef 0) default_options heap_u_null =
    Return (VRef 0) heap_u_null /\
  Validator.validate schema_u_age (VRef 0) default_options heap_u_array =
    Throw (ValidationError (FieldTypeMismatchError "u.age" Type_.Number VUndefined))
      heap_u_array.
Proof. repeat split; vm_compute; reflexivity. Qed.

(** C3. Whatever the depth at which an exception leaves a nested call of
    the walk, the caller of [validate] receives it as follows: one of the
    three classified errors arrives inside one [ValidationError], as its
    [error]; anything else arrives as it was thrown.  And [validate] never
    lets a classified error reach its caller unwrapped. *)
Theorem C3_classified_errors_are_wrapped_once_at_the_top
    (schema : Schema) (obj : Value) (options : ValidateOptions) (h : Heap) :
  (forall p s' o' r' e h',
     calls (Validator.finalOptions_strict options) h schema obj (rootKey options)
       p s' o' r' ->
     _objectFieldChecker s' o' (Validator.finalOptions_strict options) r' h =
       Throw e h' ->
     Validator.validate schema obj options h =
       Throw (match e with
              | Classified error => ValidationError error
              | _ => e
              end) h') /\
  (forall error h',
     Validator.validate schema obj options h <> Throw (Classified error) h').
Proof.
  split.
  - intros p s' o' r' e h' Hcalls He.
    apply (calls_propagate _ _ _ _ _ _ _ _ _ Hcalls) in He.
    now apply validate_Throw in He.
  - intros error h'. unfold Validator.validate, _checkObject.
    destruct (_objectFieldChecker schema obj _ _ h) as [v h1|e h1];
      [discriminate|].
    destruct e; discriminate.
Qed.

Lemma C3_witness :
  Validator.validate schema_items (VRef 0) default_options heap_items =
    Throw (ValidationError
             (FieldTypeMismatchError "items[1].owner.name" Type_.String
                (VNumber (Num 7)))) heap_items.
Proof.
  apply (proj1 (C3_classified_errors_are_wrapped_once_at_the_top
                  schema_items (VRef 0) default_options heap_items)
           [Name "items"; Index 1; Name "owner"] schema_owner (VRef 5)
           (Some "items[1].owner")
           (Classified (FieldTypeMismatchError "items[1].owner.name" Type_.String
                          (VNumber (Num 7))))
           heap_items).
  - apply (calls_element false heap_items schema_items (VRef 0) None
             [] "items" (arrayField (objectField schema_item no_options) no_options)
             [] (objectField schema_item no_options) schema_item 1);
      try (vm_compute; reflexivity).
    + repeat split; vm_compute; reflexivity.
    + intros [|k] Hk; [vm_compute; reflexivity|lia].
    + apply (calls_object false heap_items schema_item (VRef 3)
               (Some "items[1]") [] "owner" (objectField schema_owner no_options)
               [] schema_owner);
        try (vm_compute; reflexivity).
      * repeat split; vm_compute; reflexivity.
      * apply calls_here.
  - vm_compute. reflexivity.
Defined.

(** C4 (as amended). For every type-mismatch failure raised by a kind
    check of the engine, at any depth, the reported key is the [rootKey]
    option (when supplied and not empty), followed by the dot-separated
    chain of the field names down to the failing field (those above it
    being non-empty), an element of an array being written [name[index]]:
    this holds when the kind check of a field fails, and when the kind
    check of an element of an array field fails.  The type-mismatch is
    raised when [JSON.stringify] serialises the offending value; on a
    circular value the constructor of the error throws the TypeError of
    [JSON.stringify], which reaches the caller as it is, and no
    type-mismatch is raised. *)
Theorem C4_type_mismatch_reports_the_key_path
    (top : Schema) (obj : Value) (options : ValidateOptions) (h : Heap)
    (p : list seg) (s' : Schema) (o' : Value) (r' : option string)
    (pre : list (string * FieldSpec)) (key : string) (f : FieldSpec)
    (post : list (string * FieldSpec)) :
  calls (Validator.finalOptions_strict options) h top obj (rootKey options)
    p s' o' r' ->
  Forall nonempty_name p ->
  reaches_entry s' o' (Validator.finalOptions_strict options) r' h pre key f post ->
  skipped f (get_prop h o' key) = false ->
  (kind_checked f ->
   fails_kind h (type f) (get_prop h o' key) ->
   (JSON_stringify_throws h (get_prop h o' key) = false ->
    Validator.validate top obj options h =
      Throw (ValidationError
               (FieldTypeMismatchError
                  (key_path (rootKey options) (p ++ [Name key]))
                  (type f) (get_prop h o' key))) h) /\
   (JSON_stringify_throws h (get_prop h o' key) = true ->
    Validator.validate top obj options h =
      Throw (TypeError "Converting circular structure to JSON") h)) /\
  (forall fld i,
     type f = Type_.Array ->
     field_of f = Some fld ->
     is_field_kind (type fld) = true ->
     (type fld = Type_.Object -> schema fld <> None) ->
     isArray h (get_prop h o' key) = true ->
     i < length (elements h (get_prop h o' key)) ->
     (forall k, k < i ->
        _elementChecker f (Validator.finalOptions_strict options) (qualify r' key)
          (nth k (elements h (get_prop h o' key)) VUndefined) k h =
        Return (nth k (elements h (get_prop h o' key)) VUndefined) h) ->
     typeof (nth i (elements h (get_prop h o' key)) VUndefined) <>
       typeof_tag (type fld) ->
     (JSON_stringify_throws h (nth i (elements h (get_prop h o' key)) VUndefined) =
        false ->
      Validator.validate top obj options h =
        Throw (ValidationError
                 (FieldTypeMismatchError
                    (key_path (rootKey options) (p ++ [Name key; Index i]))
                    (type fld)
                    (nth i (elements h (get_prop h o' key)) VUndefined))) h) /\
     (JSON_stringify_throws h (nth i (elements h (get_prop h o' key)) VUndefined) =
        true ->
      Validator.validate top obj options h =
        Throw (TypeError "Converting circular structure to JSON") h)).
Proof.
  intros Hcalls Hp Hreach Hskip.
  pose proof (calls_level_key _ _ _ _ _ _ _ _ _ Hcalls Hp) as Hr'. subst r'.
  split.
  - intros Hkind Hfail.
    pose proof (entry_kind_mismatch o' (Validator.finalOptions_strict options)
                  (level_key (rootKey options) p) key f h Hskip Hkind Hfail)
      as Hentry.
    rewrite qualify_level_key in Hentry by exact Hp.
    apply (walk_throws_at_entry _ _ _ _ _ _ _ _ _ _ _ Hreach) in Hentry.
    apply (calls_propagate _ _ _ _ _ _ _ _ _ Hcalls) in Hentry.
    apply validate_Throw in Hentry.
    split; intros Hjson; rewrite Hentry.
    + now rewrite thrown_mismatch_serialisable.
    + now rewrite thrown_mismatch_circular.
  - intros fld i Hty Hfld Hk Hsch Harr Hi Hbefore Hfail.
    pose proof (entry_element_mismatch o' (Validator.finalOptions_strict options)
                  (level_key (rootKey options) p) key f fld h i Hskip Hty Hfld Hk
                  Hsch Harr Hi Hbefore Hfail)
      as Hentry.
    simpl in Hentry. rewrite indexed_key_path in Hentry by exact Hp.
    apply (walk_throws_at_entry _ _ _ _ _ _ _ _ _ _ _ Hreach) in Hentry.
    apply (calls_propagate _ _ _ _ _ _ _ _ _ Hcalls) in Hentry.
    apply validate_Throw in Hentry.
    split; intros Hjson; rewrite Hentry.
    + now rewrite thrown_mismatch_serialisable.
    + now rewrite thrown_mismatch_circular.
Qed.

Lemma calls_u_age :
  calls false heap_u_age_bad schema_u_age (VRef 0) (Some "request.body")
    [Name "u"] (MkSchema [("age", field Type_.Number no_options)]) (VRef 1)
    (Some "request.body.u").
Proof.
  apply (calls_object false heap_u_age_bad schema_u_age (VRef 0)
           (Some "request.body") [] "u"
           (objectField (MkSchema [("age", field Type_.Number no_options)])
              no_options)
           [] (MkSchema [("age", field Type_.Number no_options)]));
    try (vm_compute; reflexivity).
  - repeat split; vm_compute; reflexivity.
  - apply calls_here.
Defined.

Lemma C4_witness :
  Validator.validate schema_u_age (VRef 0) (under "request.body") heap_u_age_bad =
    Throw (ValidationError
             (FieldTypeMismatchError "request.body.u.age" Type_.Number
                (VString "bad"))) heap_u_age_bad /\
  Validator.validate schema_xs (VRef 0) default_options heap_xs =
    Throw (ValidationError
             (FieldTypeMismatchError "xs[1]" Type_.String (VNumber (Num 5))))
      heap_xs /\
  Validator.validate schema_a (VRef 0) default_options heap_a_circular =
    Throw (TypeError "Converting circular structure to JSON") heap_a_circular.
Proof.
  split; [|split].
  - apply (proj1 (C4_type_mismatch_reports_the_key_path
                    schema_u_age (VRef 0) (under "request.body") heap_u_age_bad
                    [Name "u"] (MkSchema [("age", field Type_.Number no_options)])
                    (VRef 1) (Some "request.body.u")
                    [] "age" (field Type_.Number no_options) []
                    calls_u_age
                    ltac:(repeat constructor; simpl; discriminate)
                    (conj eq_refl (conj eq_refl eq_refl)) eq_refl)).
    + split; simpl; discriminate.
    + simpl. discriminate.
    + vm_compute. reflexivity.
  - apply (proj2 (C4_type_mismatch_reports_the_key_path
                    schema_xs (VRef 0) default_options heap_xs
                    [] schema_xs (VRef 0) None
                    [] "xs" (arrayField (field Type_.String no_options) no_options)
                    []
                    (calls_here false heap_xs schema_xs (VRef 0) None)
                    ltac:(repeat constructor; simpl; discriminate)
                    (conj eq_refl (conj eq_refl eq_refl)) eq_refl)
             (field Type_.String no_options) 1).
    + reflexivity.
    + reflexivity.
    + reflexivity.
    + simpl. discriminate.
    + reflexivity.
    + vm_compute. reflexivity.
    + intros [|k] Hk; [vm_compute; reflexivity|lia].
    + vm_compute. discriminate.
    + vm_compute. reflexivity.
  - apply (proj1 (C4_type_mismatch_reports_the_key_path
                    schema_a (VRef 0) default_options heap_a_circular
                    [] schema_a (VRef 0) None
                    [] "a" (field Type_.String no_options) []
                    (calls_here false heap_a_circular schema_a (VRef 0) None)
                    ltac:(constructor)
                    (conj eq_refl (conj eq_refl eq_refl)) eq_refl)).
    + split; simpl; discriminate.
    + vm_compute. discriminate.
    + vm_compute. reflexivity.
Defined.

(** C4 as stated fails for two kinds of validation failure.  A classified
    error thrown by a custom resolver carries the key the resolver gave it
    (here ["id"], for the field at ["request.body.u.id"]).  And the key of
    an unexpected-field error is the bare input key (here ["z"], found in
    the object at ["request.body.u"]). *)
Lemma C4_counterexample :
  (Validator.validate (schema_u_id rejecting_as_id) (VRef 0) (under "request.body")
     heap_u_id =
     Throw (ValidationError
              (FieldTypeMismatchError "id" Type_.String (VNumber (Num 1))))
       heap_u_id /\
   key_path (Some "request.body") [Name "u"; Name "id"] = "request.body.u.id") /\
  (Validator.validate schema_u_age (VRef 0) (strict_under "request.body")
     heap_u_age_z =
     Throw (ValidationError (UnexpectedFieldError "z")) heap_u_age_z /\
   key_path (Some "request.body") [Name "u"; Name "z"] = "request.body.u.z").
Proof. repeat split; vm_compute; reflexivity. Qed.

(** C5 (as amended). At every object level, that is for every call of
    [_objectFieldChecker]: in strict mode the first key of the input, in
    the input's enumeration order, that the schema does not declare ends
    the level with an unexpected-field error for that key, whatever the
    entries of the schema would have done; and when the strict check has
    passed, the first entry of the schema, in the order in which
    [Object.keys] lists its keys, whose check throws ends the level with
    that very exception, the entries after it not being looked at.  For a
    schema written as an object literal, that order is the order of
    declaration when no key is an array index or [__proto__] and no key is
    written twice. *)
Theorem C5_strict_check_first_then_first_failing_field
    (schema : Schema) (obj : Value) (strict : bool) (rootKey : option string)
    (h : Heap) :
  (forall pre k0 post,
     strict = true ->
     Object_keys h obj = Some (pre ++ k0 :: post) ->
     Forall (fun k => In k (map fst (entries schema))) pre ->
     ~ In k0 (map fst (entries schema)) ->
     _objectFieldChecker schema obj strict rootKey h =
       Throw (Classified (UnexpectedFieldError k0)) h) /\
  (forall pre key f post e h',
     entries schema = pre ++ (key, f) :: post ->
     strict_check schema obj strict h = Return tt h ->
     Forall (fun kf => entry obj strict rootKey (fst kf) (snd kf) h = Return tt h)
       pre ->
     entry obj strict rootKey key f h = Throw e h' ->
     _objectFieldChecker schema obj strict rootKey h = Throw e h') /\
  (forall declared pre key f post e h',
     schema = Object_literal declared ->
     Forall (fun kf => plain_key (fst kf)) declared ->
     List.NoDup (map fst declared) ->
     declared = pre ++ (key, f) :: post ->
     strict_check schema obj strict h = Return tt h ->
     Forall (fun kf => entry obj strict rootKey (fst kf) (snd kf) h = Return tt h)
       pre ->
     entry obj strict rootKey key f h = Throw e h' ->
     _objectFieldChecker schema obj strict rootKey h = Throw e h').
Proof.
  assert (Hfirst : forall pre key f post e h',
     entries schema = pre ++ (key, f) :: post ->
     strict_check schema obj strict h = Return tt h ->
     Forall (fun kf => entry obj strict rootKey (fst kf) (snd kf) h = Return tt h)
       pre ->
     entry obj strict rootKey key f h = Throw e h' ->
     _objectFieldChecker schema obj strict rootKey h = Throw e h').
  { intros pre key f post e h' Hes Hstrict Hpre He.
    apply walk_throws_at_entry with (pre := pre) (key := key) (f := f)
      (post := post); [|exact He].
    repeat split; try assumption. now apply for_entries_pass. }
  split; [|split].
  - intros pre k0 post -> Hkeys Hpre Hk0.
    apply walk_throws_at_strict_check.
    now apply strict_check_first_unexpected with (pre := pre) (post := post).
  - exact Hfirst.
  - intros declared pre key f post e h' Hschema Hnone Hnd Hdecl.
    apply Hfirst with (post := post).
    rewrite Hschema, Object_literal_declaration_order by assumption.
    exact Hdecl.
Qed.

Lemma C5_witness :
  _objectFieldChecker schema_ab (VRef 0) true None heap_a_zz_yy =
    Throw (Classified (UnexpectedFieldError "zz")) heap_a_zz_yy /\
  _objectFieldChecker schema_ab (VRef 0) false None heap_a_zz_yy =
    Throw (Classified (FieldTypeMismatchError "a" Type_.String (VNumber (Num 1))))
      heap_a_zz_yy /\
  _objectFieldChecker (Object_literal declared_a_b) (VRef 0) false None
    heap_a_zz_yy =
    Throw (Classified (FieldTypeMismatchError "a" Type_.String (VNumber (Num 1))))
      heap_a_zz_yy.
Proof.
  split; [|split].
  - apply (proj1 (C5_strict_check_first_then_first_failing_field
                    schema_ab (VRef 0) true None heap_a_zz_yy)
             ["a"] "zz" ["yy"]).
    + reflexivity.
    + vm_compute. reflexivity.
    + repeat constructor.
    + simpl. intros [H|[H|[]]]; discriminate H.
  - apply (proj1 (proj2 (C5_strict_check_first_then_first_failing_field
                           schema_ab (VRef 0) false None heap_a_zz_yy))
             [] "a" (field Type_.String no_options)
             [("b", field Type_.String no_options)]).
    + reflexivity.
    + reflexivity.
    + constructor.
    + vm_compute. reflexivity.
  - apply (proj2 (proj2 (C5_strict_check_first_then_first_failing_field
                           (Object_literal declared_a_b) (VRef 0) false None
                           heap_a_zz_yy))
             declared_a_b [] "a" (field Type_.String no_options)
             [("b", field Type_.String no_options)]).
    + reflexivity.
    + repeat constructor; discriminate.
    + apply List.NoDup_cons; [simpl; intros [H|[]]; discriminate H|].
      apply List.NoDup_cons; [intros []|apply List.NoDup_nil].
    + reflexivity.
    + reflexivity.
    + constructor.
    + vm_compute. reflexivity.
Defined.

(** C5 as stated fails: the entries are walked in the order of
    [Object.keys(schema)], which is not the order of declaration when a key
    is an array index.  In the schema [{ b: field(Type.String), 1:
    field(Type.String) }] the field [b] is declared first, and on the input
    [{}] it fails its check; yet the field reported is ["1"]. *)
Lemma C5_counterexample :
  map fst declared_b_1 = ["b"; "1"] /\
  map fst (entries (Object_literal declared_b_1)) = ["1"; "b"] /\
  entry (VRef 0) false None "b" (field Type_.String no_options) heap_empty_object =
    Throw (Classified (FieldTypeMismatchError "b" Type_.String VUndefined))
      heap_empty_object /\
  Validator.validate (Object_literal declared_b_1) (VRef 0) default_options
    heap_empty_object =
    Throw (ValidationError (FieldTypeMismatchError "1" Type_.String VUndefined))
      heap_empty_object.
Proof. repeat split; vm_compute; reflexivity. Qed.

(** C6 (the code departs from the claim). The input [{ xs: [1] }] satisfies
    the schema [{ xs: arrayField(customField((val) => val)) }]: [xs] is an
    Array and the resolver returns each element as it is.  Yet [validate]
    does not return it: it throws the plain error "Unknown type for key
    xs[0]", the element checker having no case for the Custom kind. *)
Theorem C6_satisfying_input_with_custom_elements_is_rejected :
  satisfies heap_xs_one (schema_xs_custom same) (VRef 0) /\
  Validator.validate (schema_xs_custom same) (VRef 0) default_options heap_xs_one =
    Throw (Error "Unknown type for key xs[0]") heap_xs_one.
Proof.
  split; [|vm_compute; reflexivity].
  split.
  - exists 0, [("xs", VRef 1)]. split; reflexivity.
  - simpl. split; [|exact I]. right. split; [reflexivity|].
    intros i Hi. exists (nth i (elements heap_xs_one
                                  (get_prop heap_xs_one (VRef 0) "xs")) VUndefined).
    split; [reflexivity|].
    destruct i as [|i]; [reflexivity|].
    vm_compute in Hi. lia.
Qed.

(** C7 (the code departs from the claim). For an array whose element kind
    is Custom the element checker [_fieldChecker] has no case: whatever the
    resolver is, it is not called, nothing is written back, and the first
    element ends validation with the plain error "Unknown type for key". *)
Theorem C7_custom_elements_are_not_resolved (r : Resolver) :
  Validator.validate (schema_xs_custom r) (VRef 0) default_options heap_xs_one =
    Throw (Error "Unknown type for key xs[0]") heap_xs_one.
Proof. vm_compute. reflexivity. Qed.

(** C8 (as amended). For every custom field that the walk reaches, at any
    object level: if the resolver returns a value that is not [===] to the
    value it received, [validate] throws the plain error "Custom resolver
    ... did not return the origin value", unwrapped; and if the resolver
    throws, the caller receives what it threw, unwrapped, unless that is an
    instance of one of the three classified error classes, which arrives
    inside the [ValidationError] wrapper like the engine's own. *)
Theorem C8_custom_resolver_outcomes
    (schema : Schema) (obj : Value) (options : ValidateOptions) (h : Heap)
    (p : list seg) (s' : Schema) (o' : Value) (r' : option string)
    (pre : list (string * FieldSpec)) (key : string) (f : FieldSpec)
    (post : list (string * FieldSpec)) (r : Resolver) :
  calls (Validator.finalOptions_strict options) h schema obj (rootKey options)
    p s' o' r' ->
  reaches_entry s' o' (Validator.finalOptions_strict options) r' h pre key f post ->
  skipped f (get_prop h o' key) = false ->
  type f = Type_.Custom ->
  resolver f = Some r ->
  (forall result,
     r h (get_prop h o' key) (qualify r' key) = inr result ->
     strict_eq result (get_prop h o' key) = false ->
     Validator.validate schema obj options h =
       Throw (Error ("Custom resolver for key " +:+ key +:+
                " did not return the origin value, which is not allowed")) h) /\
  (forall e,
     r h (get_prop h o' key) (qualify r' key) = inl e ->
     Validator.validate schema obj options h =
       Throw (match e with
              | Classified error => ValidationError error
              | _ => e
              end) h).
Proof.
  intros Hcalls Hreach Hskip Hty Hres.
  pose proof (entry_custom o' (Validator.finalOptions_strict options) r' key f r h
                Hskip Hty Hres) as Hentry.
  split.
  - intros result Hr Hneq. rewrite Hr, Hneq in Hentry.
    apply (walk_throws_at_entry _ _ _ _ _ _ _ _ _ _ _ Hreach) in Hentry.
    apply (calls_propagate _ _ _ _ _ _ _ _ _ Hcalls) in Hentry.
    now apply validate_Throw in Hentry.
  - intros e Hr. rewrite Hr in Hentry.
    apply (walk_throws_at_entry _ _ _ _ _ _ _ _ _ _ _ Hreach) in Hentry.
    apply (calls_propagate _ _ _ _ _ _ _ _ _ Hcalls) in Hentry.
    now apply validate_Throw in Hentry.
Qed.

Lemma calls_u_id (r : Resolver) :
  calls false heap_u_id (schema_u_id r) (VRef 0) None [Name "u"]
    (schema_id r) (VRef 1) (Some "u").
Proof.
  apply (calls_object false heap_u_id (schema_u_id r) (VRef 0) None
           [] "u" (objectField (schema_id r) no_options) [] (schema_id r));
    try (vm_compute; reflexivity).
  - repeat split; vm_compute; reflexivity.
  - apply calls_here.
Defined.

Lemma C8_witness :
  Validator.validate (schema_u_id always_true) (VRef 0) default_options heap_u_id =
    Throw (Error "Custom resolver for key id did not return the origin value, which is not allowed")
      heap_u_id /\
  Validator.validate (schema_u_id failing) (VRef 0) default_options heap_u_id =
    Throw (Error "bad id") heap_u_id.
Proof.
  split.
  - apply (proj1 (C8_custom_resolver_outcomes
                    (schema_u_id always_true) (VRef 0) default_options heap_u_id
                    [Name "u"] (schema_id always_true) (VRef 1) (Some "u")
                    [] "id" (customField always_true no_options) [] always_true
                    (calls_u_id always_true)
                    (conj eq_refl (conj eq_refl eq_refl))
                    eq_refl eq_refl eq_refl)
             (VBool true)); reflexivity.
  - apply (proj2 (C8_custom_resolver_outcomes
                    (schema_u_id failing) (VRef 0) default_options heap_u_id
                    [Name "u"] (schema_id failing) (VRef 1) (Some "u")
                    [] "id" (customField failing no_options) [] failing
                    (calls_u_id failing)
                    (conj eq_refl (conj eq_refl eq_refl))
                    eq_refl eq_refl eq_refl)
             (Error "bad id")); reflexivity.
Defined.

(** C8 as stated fails: a resolver may throw an instance of a classified
    error class, here [FieldTypeMismatchError]; the caller then receives it
    classified, inside the [ValidationError] wrapper, not as it was thrown. *)
Lemma C8_counterexample :
  rejecting heap_c_one (VNumber (Num 1)) "c" =
    inl (Classified (FieldTypeMismatchError "c" Type_.String (VNumber (Num 1)))) /\
  Validator.validate (schema_c rejecting) (VRef 0) default_options heap_c_one =
    Throw (ValidationError
             (FieldTypeMismatchError "c" Type_.String (VNumber (Num 1))))
      heap_c_one /\
  Validator.validate (schema_c rejecting) (VRef 0) default_options heap_c_one <>
    Throw (Classified (FieldTypeMismatchError "c" Type_.String (VNumber (Num 1))))
      heap_c_one.
Proof.
  split; [reflexivity|]. split; [vm_compute; reflexivity|].
  intros H. vm_compute in H. discriminate H.
Qed.

(** C9 (as amended). For every required field of a kind the engine checks
    itself (String, Number, Bool, Array, or Object with its nested schema)
    whose value is absent from the input object, at any object level the
    walk reaches, validation fails through the kind check used for present
    values: the caller receives a type-mismatch error with the field's
    qualified key, its declared kind and [undefined] as the value.  And the
    engine never constructs the reserved non-nullable error: it can reach
    the caller only when a custom resolver throws it. *)
Theorem C9_absent_required_field_is_a_type_mismatch
    (schema : Schema) (obj : Value) (options : ValidateOptions) (h : Heap) :
  (forall p s' o' r' pre key f post,
     calls (Validator.finalOptions_strict options) h schema obj (rootKey options)
       p s' o' r' ->
     reaches_entry s' o' (Validator.finalOptions_strict options) r' h
       pre key f post ->
     get_prop h o' key = VUndefined ->
     fieldOptions_optional f <> Some true ->
     kind_checked f ->
     Validator.validate schema obj options h =
       Throw (ValidationError
                (FieldTypeMismatchError (qualify r' key) (type f) VUndefined)) h) /\
  (resolvers_in_schema (throws_only (fun e => ~ mentions_non_nullable e)) schema ->
   forall e h',
     Validator.validate schema obj options h = Throw e h' ->
     ~ mentions_non_nullable e).
Proof.
  split.
  - intros p s' o' r' pre key f post Hcalls Hreach Hv Hreq Hkind.
    pose proof (entry_absent_required o' (Validator.finalOptions_strict options)
                  r' key f h Hv Hreq Hkind) as Hentry.
    apply (walk_throws_at_entry _ _ _ _ _ _ _ _ _ _ _ Hreach) in Hentry.
    apply (calls_propagate _ _ _ _ _ _ _ _ _ Hcalls) in Hentry.
    now apply validate_Throw in Hentry.
  - intros Hres e h' Hv. unfold Validator.validate, _checkObject in Hv.
    destruct (_objectFieldChecker schema obj _ _ h) as [v h1|e1 h1] eqn:Hw;
      [discriminate|].
    apply (walk_origin _ _ _ _ Hres) in Hw.
    destruct e1 as [[k t v|k|k]|[k t v|k|k]|m|m]; simpl in *;
      injection Hv as <- _; simpl; tauto.
Qed.

Lemma calls_a_b :
  calls false heap_a_b_empty schema_a_b (VRef 0) None [Name "b"]
    schema_c_d (VRef 1) (Some "b").
Proof.
  apply (calls_object false heap_a_b_empty schema_a_b (VRef 0) None
           [("a", field Type_.String no_options)] "b"
           (objectField schema_c_d no_options) [] schema_c_d);
    try (vm_compute; reflexivity).
  - repeat split; vm_compute; reflexivity.
  - apply calls_here.
Defined.

Lemma C9_witness :
  Validator.validate schema_a_b (VRef 0) default_options heap_a_b_empty =
    Throw (ValidationError (FieldTypeMismatchError "b.c" Type_.Number VUndefined))
      heap_a_b_empty /\
  ~ mentions_non_nullable
      (ValidationError (FieldTypeMismatchError "b.c" Type_.Number VUndefined)).
Proof.
  split.
  - apply (proj1 (C9_absent_required_field_is_a_type_mismatch
                    schema_a_b (VRef 0) default_options heap_a_b_empty)
             [Name "b"] schema_c_d (VRef 1) (Some "b")
             [] "c" (field Type_.Number no_options)
             [("d", field Type_.Bool optionally)]
             calls_a_b (conj eq_refl (conj eq_refl eq_refl)) eq_refl).
    + simpl. discriminate.
    + split; simpl; discriminate.
  - apply (proj2 (C9_absent_required_field_is_a_type_mismatch
                    schema_a_b (VRef 0) default_options heap_a_b_empty))
      with (h' := heap_a_b_empty).
    + simpl. tauto.
    + vm_compute. reflexivity.
Defined.

(** C9 as stated fails: the field [c] of [{ c: customField((val) => val) }]
    is required and absent from the input [{}], yet validation succeeds:
    the resolver is handed [undefined] and returns it. *)
Lemma C9_counterexample :
  get_prop heap_empty_object (VRef 0) "c" = VUndefined /\
  Validator.validate (schema_c same) (VRef 0) default_options heap_empty_object =
    Return (VRef 0) heap_empty_object.
Proof. split; vm_compute; reflexivity. Qed.

(** C10 (as amended). For every schema, [validate] in strict mode on a
    [null] or [undefined] input throws the TypeError of [Object.keys],
    which reaches the caller unwrapped.  With strict mode off, the same
    input yields a type-mismatch error inside the [ValidationError]
    wrapper, for the first required field and with [undefined] as its
    value, when that field is of a kind the engine checks itself (String,
    Number, Bool, Array, or Object with its nested schema). *)
Theorem C10_null_input (schema : Schema) (obj : Value)
    (options : ValidateOptions) (h : Heap) :
  obj = VNull \/ obj = VUndefined ->
  (Validator.finalOptions_strict options = true ->
   Validator.validate schema obj options h =
     Throw (TypeError "Cannot convert undefined or null to object") h) /\
  (Validator.finalOptions_strict options = false ->
   forall pre key f post,
     entries schema = pre ++ (key, f) :: post ->
     Forall (fun kf => fieldOptions_optional (snd kf) = Some true) pre ->
     fieldOptions_optional f <> Some true ->
     kind_checked f ->
     Validator.validate schema obj options h =
       Throw (ValidationError
                (FieldTypeMismatchError (qualify (rootKey options) key) (type f)
                   VUndefined)) h).
Proof.
  intros Hnull. split.
  - intros Hstrict.
    change (TypeError "Cannot convert undefined or null to object")
      with (rethrown (TypeError "Cannot convert undefined or null to object")).
    apply validate_Throw. rewrite Hstrict.
    apply walk_throws_at_strict_check. now apply strict_check_null.
  - intros Hstrict pre key f post Hes Hpre Hreq Hkind.
    change (ValidationError
              (FieldTypeMismatchError (qualify (rootKey options) key) (type f)
                 VUndefined))
      with (rethrown (Classified
              (FieldTypeMismatchError (qualify (rootKey options) key) (type f)
                 VUndefined))).
    apply validate_Throw. rewrite Hstrict.
    apply walk_throws_at_entry with (pre := pre) (key := key) (f := f)
      (post := post).
    + repeat split; [exact Hes|].
      apply for_entries_pass. eapply Forall_impl; [exact Hpre|].
      intros [k f'] Ho. simpl in *. apply entry_skipped.
      rewrite get_prop_null by exact Hnull. now apply skipped_optional_absent.
    + apply entry_absent_required; try assumption.
      now apply get_prop_null.
Qed.

Lemma C10_witness :
  Validator.validate schema_n_xs VNull strictly ∅ =
    Throw (TypeError "Cannot convert undefined or null to object") ∅ /\
  Validator.validate schema_n_xs VNull (under "body") ∅ =
    Throw (ValidationError (FieldTypeMismatchError "body.xs" Type_.Array VUndefined))
      ∅.
Proof.
  split.
  - apply (proj1 (C10_null_input schema_n_xs VNull strictly ∅ (or_introl eq_refl))).
    reflexivity.
  - apply (proj2 (C10_null_input schema_n_xs VNull (under "body") ∅
                    (or_introl eq_refl))
             eq_refl
             [("n", field Type_.Number optionally)] "xs"
             (arrayField (field Type_.String no_options) no_options) []).
    + reflexivity.
    + repeat constructor.
    + simpl. discriminate.
    + split; simpl; discriminate.
Defined.

(** C10 as stated fails: the first (and only) required field of
    [{ c: customField((val) => val) }] is a custom field; on a [null] input
    with strict mode off its resolver is handed [undefined], returns it, and
    [validate] returns without any error. *)
Lemma C10_counterexample :
  Validator.validate (schema_c same) VNull default_options ∅ = Return VNull ∅ /\
  ~ (exists error,
       Validator.validate (schema_c same) VNull default_options ∅ =
         Throw (ValidationError error) ∅).
Proof.
  split; [vm_compute; reflexivity|].
  intros [error H]. vm_compute in H. discriminate H.
Qed.

(** * Further properties *)

(** ** When the checks return *)

Lemma seq_ret_Return {A : Type} (m : M A) (a : A) (h : Heap) :
  returns_at m a h ->
  ((m;; ret tt) h = Return tt h <-> m h = Return a h).
Proof.
  intros Hr. unfold returns_at in Hr. unfold_M.
  destruct (m h) as [a' h'|e h'].
  - destruct Hr as [-> ->]. tauto.
  - split; discriminate.
Qed.

(** The strict check passes exactly when strict mode is off, or the keys
    of the input can be enumerated and each of them is declared. *)
Lemma strict_check_passes_iff (schema : Schema) (obj : Value) (strict : bool)
    (h : Heap) :
  strict_check schema obj strict h = Return tt h <->
  (strict = true ->
   exists actualKeys,
     Object_keys h obj = Some actualKeys /\
     Forall (fun k => In k (map fst (entries schema))) actualKeys).
Proof.
  unfold strict_check. destruct strict; [|split; [discriminate|reflexivity]].
  destruct (Object_keys h obj) as [keys|].
  - assert (Hfilter :
      List.filter (fun key => negb (includes (map fst (entries schema)) key)) keys = []
      <-> Forall (fun k => In k (map fst (entries schema))) keys).
    { induction keys as [|k keys IH]; simpl.
      - split; [constructor|reflexivity].
      - rewrite Forall_cons, <- IH, <- includes_In.
        destruct (includes _ k); simpl; split; try tauto; try discriminate.
        intros [Hk _]. discriminate Hk. }
    destruct (List.filter _ keys) as [|k0 rest] eqn:Hf.
    + split; [|reflexivity]. intros _ _. exists keys. split; [reflexivity|].
      now apply Hfilter.
    + split; [discriminate|]. intros Hall.
      destruct (Hall eq_refl) as (keys' & [= <-] & Hk).
      apply Hfilter in Hk. discriminate Hk.
  - split; [discriminate|]. intros Hall.
    destruct (Hall eq_refl) as (keys' & Hk & _). discriminate Hk.
Qed.

Lemma for_entries_Return_iff (body : string -> FieldSpec -> M unit)
    (es : list (string * FieldSpec)) (h : Heap) :
  (forall k f, returns_at (body k f) tt h) ->
  (for_entries body es h = Return tt h <->
   Forall (fun kf => body (fst kf) (snd kf) h = Return tt h) es).
Proof.
  intros Hret. split; [|apply for_entries_pass].
  induction es as [|[k f] rest IH]; simpl; [constructor|].
  unfold_M. pose proof (Hret k f) as Hkf. unfold returns_at in Hkf.
  destruct (body k f h) as [[] h1|e1 h1] eqn:Hb; [|discriminate].
  destruct Hkf as [_ ->]. intros Hrest. constructor; [exact Hb|now apply IH].
Qed.

Lemma walk_Return_iff (schema : Schema) (obj : Value) (strict : bool)
    (rootKey : option string) (h : Heap) :
  _objectFieldChecker schema obj strict rootKey h = Return obj h <->
  strict_check schema obj strict h = Return tt h /\
  for_entries (entry obj strict rootKey) (entries schema) h = Return tt h.
Proof.
  rewrite _objectFieldChecker_eq. unfold_M.
  pose proof (strict_check_returns schema obj strict h) as Hs.
  unfold returns_at in Hs.
  destruct (strict_check schema obj strict h) as [[] h1|e1 h1].
  - destruct Hs as [_ ->].
    pose proof (for_entries_returns (entry obj strict rootKey) (entries schema) h)
      as Hl.
    unfold returns_at in Hl.
    destruct (for_entries _ _ h) as [[] h2|e2 h2].
    + destruct Hl as [_ ->]; [|tauto].
      apply Forall_forall. intros [k f] _. apply entry_returns.
    + split; [discriminate|]. intros [_ H]. discriminate H.
  - split; [discriminate|]. intros [H _]. discriminate H.
Qed.

Section Array_loop_returns.

Variable obj : Value.
Variable next : Value -> nat -> M Value.
Variable h : Heap.
Hypothesis next_returns : forall v i, returns_at (next v i) v h.

Lemma _isArray_loop_Return (n i : nat) :
  _isArray_loop n obj next i h = Return tt h ->
  length (elements h obj) <= i + n ->
  forall j, i <= j < length (elements h obj) ->
    next (nth j (elements h obj) VUndefined) j h =
    Return (nth j (elements h obj) VUndefined) h.
Proof.
  revert i. induction n as [|n IH]; intros i Hloop Hn j Hj; [lia|].
  rewrite (_isArray_loop_step obj next h next_returns n i) in Hloop by lia.
  pose proof (next_returns (nth i (elements h obj) VUndefined) i) as Hi.
  unfold returns_at in Hi.
  destruct (next _ i h) as [v h1|e1 h1] eqn:Hnext; [|discriminate].
  destruct Hi as [-> ->].
  destruct (Nat.eq_dec i j) as [->|Hne]; [exact Hnext|].
  apply (IH (S i)); [exact Hloop|lia|lia].
Qed.

(** [_isArray] returns exactly when the value is an array and every one
    of its elements passes [next]. *)
Lemma _isArray_Return_iff (key : string) :
  _isArray obj key next h = Return obj h <->
  isArray h obj = true /\
  forall j, j < length (elements h obj) ->
    next (nth j (elements h obj) VUndefined) j h =
    Return (nth j (elements h obj) VUndefined) h.
Proof.
  split.
  - intros Hret. destruct (isArray h obj) eqn:Harr.
    + split; [reflexivity|]. intros j Hj.
      unfold _isArray in Hret. unfold_M. unfold test_isArray, read_length in Hret.
      rewrite Harr in Hret. simpl in Hret.
      destruct (_isArray_loop _ obj next 0 h) as [[] h1|e1 h1] eqn:Hloop;
        [|discriminate].
      injection Hret as ->.
      apply (_isArray_loop_Return _ 0 Hloop); lia.
    + rewrite _isArray_not_array in Hret by exact Harr. discriminate Hret.
  - intros [Harr Hall]. now apply _isArray_passes.
Qed.

End Array_loop_returns.

(** ** Acceptance *)

Lemma accepts_schema_Forall (strict : bool) (h : Heap)
    (es : list (string * FieldSpec)) (obj : Value) (rootKey : option string) :
  accepts_schema strict h (MkSchema es) obj rootKey <->
  (strict = true ->
   exists actualKeys,
     Object_keys h obj = Some actualKeys /\
     Forall (fun k => In k (map fst es)) actualKeys) /\
  Forall (fun kf => accepts_entry strict h obj rootKey (fst kf) (snd kf)) es.
Proof.
  simpl. apply and_iff_compat_l.
  induction es as [|[k f] rest IH].
  - split; [constructor|done].
  - rewrite Forall_cons, <- IH. apply and_iff_compat_r.
    unfold accepts_entry. simpl. now destruct f as [o t sch res fld].
Qed.

Section Acceptance.

Variable strict : bool.
Variable h : Heap.

Lemma entry_Return_iff (obj : Value) (rootKey : option string) (k : string)
    (f : FieldSpec) :
  checks_as_accepted strict h f ->
  on_option (checks_as_accepted strict h) (field_of f) ->
  (entry obj strict rootKey k f h = Return tt h <->
   accepts_entry strict h obj rootKey k f).
Proof.
  intros Hf Hfld. unfold accepts_entry.
  destruct (skipped f (get_prop h obj k)) eqn:Hskip.
  { rewrite entry_skipped by exact Hskip. tauto. }
  assert (Hor : forall X : Prop, (false = true \/ X) <-> X)
    by (intros X; split; [intros [H|H]; [discriminate|exact H]|now right]).
  rewrite Hor.
  destruct (type f) eqn:Hty.
  1-4: rewrite entry_field by (try assumption; now rewrite Hty);
       rewrite seq_ret_Return by apply _fieldChecker_returns;
       apply Hf.
  - rewrite entry_array by assumption.
    rewrite seq_ret_Return
      by (apply _isArray_returns; intros v i; apply _elementChecker_returns).
    rewrite _isArray_Return_iff by (intros v i; apply _elementChecker_returns).
    apply and_iff_compat_l.
    unfold _elementChecker, element_checker. fold _fieldChecker.
    destruct (field_of f) as [fld|]; simpl in Hfld.
    + split; intros Hall j Hj; apply Hfld, Hall, Hj.
    + split; intros Hall j Hj; specialize (Hall j Hj); [discriminate Hall|done].
  - destruct (resolver f) as [r|] eqn:Hr.
    + rewrite (entry_custom _ _ _ _ _ r) by assumption.
      destruct (r h _ _) as [e|result].
      * split; [discriminate|]. intros (result & Hres & _). discriminate Hres.
      * destruct (strict_eq result _) eqn:Heq.
        -- split; [|reflexivity]. intros _. now exists result.
        -- split; [discriminate|]. intros (result' & [= <-] & Heq').
           rewrite Heq in Heq'. discriminate Heq'.
    + unfold entry, entry_with. unfold_M. unfold read_prop.
      rewrite Hskip, Hty, Hr. split; [discriminate|done].
Qed.

End Acceptance.

(** The walk returns (the object it was given, in the unchanged store)
    exactly on the objects that [accepts_schema] describes. *)
Lemma walk_returns_iff_accepted (strict : bool) (h : Heap) (s : Schema) :
  forall obj rootKey,
    _objectFieldChecker s obj strict rootKey h = Return obj h <->
    accepts_schema strict h s obj rootKey.
Proof.
  revert s.
  apply (Schema_mutind
    (fun f => checks_as_accepted strict h f /\
              on_option (checks_as_accepted strict h) (field_of f))
    (fun s => forall obj rootKey,
       _objectFieldChecker s obj strict rootKey h = Return obj h <->
       accepts_schema strict h s obj rootKey)).
  - intros o t sch r fld Hs Hf. split.
    + intros key v. unfold _fieldChecker, _fieldChecker_with. simpl.
      destruct t.
      * unfold _isString.
        destruct (String.eqb_spec (typeof v) "string"); cbn [negb];
          rewrite ?throw_new_FieldTypeMismatchError;
          split; try done; discriminate.
      * unfold _isNumber.
        destruct (String.eqb_spec (typeof v) "number"); cbn [negb];
          rewrite ?throw_new_FieldTypeMismatchError;
          split; try done; discriminate.
      * unfold _isBool.
        destruct (String.eqb_spec (typeof v) "boolean"); cbn [negb];
          rewrite ?throw_new_FieldTypeMismatchError;
          split; try done; discriminate.
      * destruct sch as [s|]; [|split; [discriminate|tauto]].
        unfold _isObject.
        destruct (String.eqb_spec (typeof v) "object") as [Hty|Hty]; cbn [negb].
        -- simpl in Hs. rewrite Hs. tauto.
        -- rewrite throw_new_FieldTypeMismatchError.
           split; [discriminate|]. tauto.
      * split; [discriminate|done].
      * split; [discriminate|done].
    + destruct fld as [fld|]; [|exact I]. simpl in *. apply Hf.
  - intros es Hes obj rootKey.
    rewrite walk_Return_iff, accepts_schema_Forall, strict_check_passes_iff.
    apply and_iff_compat_l. simpl.
    rewrite for_entries_Return_iff by (intros k f; apply entry_returns).
    rewrite !Forall_forall. split; intros Hall [k f] Hin;
      specialize (Hall _ Hin); specialize (proj1 (Forall_forall _ _) Hes _ Hin);
      simpl in *; intros [H1 H2];
      now apply (entry_Return_iff strict h obj rootKey k f H1 H2).
Qed.

Lemma validate_Return_iff_walk (schema : Schema) (obj : Value)
    (options : ValidateOptions) (h : Heap) :
  Validator.validate schema obj options h = Return obj h <->
  _objectFieldChecker schema obj (Validator.finalOptions_strict options)
    (rootKey options) h = Return obj h.
Proof.
  unfold Validator.validate, _checkObject.
  destruct (_objectFieldChecker schema obj _ _ h) as [v h1|e h1].
  - tauto.
  - split; [|discriminate]. destruct e; discriminate.
Qed.

(** X2. [validate] returns its input exactly when the input meets the
    conditions the walk tests, collected in [accepts_schema]: in strict
    mode the keys of the object can be enumerated and are all declared,
    and every entry is skipped or holds a value that passes its check. *)
Theorem validate_returns_iff_accepted (schema : Schema) (obj : Value)
    (options : ValidateOptions) (h : Heap) :
  Validator.validate schema obj options h = Return obj h <->
  accepts_schema (Validator.finalOptions_strict options) h schema obj
    (rootKey options).
Proof. rewrite validate_Return_iff_walk. apply walk_returns_iff_accepted. Qed.

(** ** The input and the store after a call *)

(** X1. [validate] hands back the very value it was given and leaves the store
    as it found it, whether it returns or throws: each write
    [obj[i] = next(v, i)] of [_isArray] puts back the element it read. *)
Theorem validate_returns_its_input_in_the_same_store (schema : Schema)
    (obj : Value) (options : ValidateOptions) (h : Heap) :
  Validator.validate schema obj options h = Return obj h \/
  exists e, Validator.validate schema obj options h = Throw e h.
Proof.
  unfold Validator.validate, _checkObject.
  destruct (_objectFieldChecker_cases schema obj
              (Validator.finalOptions_strict options) (rootKey options) h)
    as [Hr|[e He]].
  - left. now rewrite Hr.
  - right. rewrite He. exists (rethrown e). now destruct e.
Qed.

(** ** Strict mode only rejects more *)

Lemma accepts_strict_off (h : Heap) (s : Schema) :
  forall obj rootKey,
    accepts_schema true h s obj rootKey -> accepts_schema false h s obj rootKey.
Proof.
  revert s.
  apply (Schema_mutind
    (fun f =>
       (forall key v, accepts_value true h f key v -> accepts_value false h f key v) /\
       on_option (fun e => forall key v,
         accepts_value true h e key v -> accepts_value false h e key v)
         (field_of f))
    (fun s => forall obj rootKey,
       accepts_schema true h s obj rootKey ->
       accepts_schema false h s obj rootKey)).
  - intros o t sch r fld Hs Hf. split.
    + intros key v. simpl. destruct t; try done.
      intros [Hty Hacc]. split; [exact Hty|].
      destruct sch as [s|]; [|done]. now apply Hs.
    + destruct fld as [fld|]; [|exact I]. simpl in *. apply Hf.
  - intros es Hes obj rootKey. rewrite !accepts_schema_Forall.
    intros [_ Hall]. split; [discriminate|].
    rewrite Forall_forall in Hes, Hall. apply Forall_forall.
    intros [k f] Hin. specialize (Hes _ Hin). specialize (Hall _ Hin).
    simpl in *. destruct Hes as [Hv He]. unfold accepts_entry in *.
    destruct Hall as [Hskip|Hacc]; [now left|right].
    destruct (type f); try now apply Hv.
    + destruct Hacc as [Harr Hel]. split; [exact Harr|].
      intros i Hi. specialize (Hel i Hi).
      destruct (field_of f) as [fld|]; [|done]. simpl in He. now apply He.
    + exact Hacc.
Qed.

(** X3. What [validate] accepts, in strict mode or not, it accepts with strict
    mode off: the strict check is the only difference between the two. *)
Theorem acceptance_survives_strict_off (schema : Schema) (obj : Value)
    (options options' : ValidateOptions) (h : Heap) :
  rootKey options = rootKey options' ->
  Validator.finalOptions_strict options' = false ->
  Validator.validate schema obj options h = Return obj h ->
  Validator.validate schema obj options' h = Return obj h.
Proof.
  intros Hroot Hoff.
  rewrite !validate_Return_iff_walk, !walk_returns_iff_accepted, Hroot, Hoff.
  destruct (Validator.finalOptions_strict options); [|done].
  apply accepts_strict_off.
Qed.

(** ** The root key only changes the reported keys *)

Lemma custom_free_schema_Forall (es : list (string * FieldSpec)) :
  custom_free_schema (MkSchema es) <->
  Forall (fun kf => type (snd kf) <> Type_.Custom /\ custom_free_field (snd kf)) es.
Proof.
  simpl. induction es as [|[k f] rest IH].
  - split; [constructor|done].
  - rewrite Forall_cons. simpl. now rewrite IH.
Qed.

Lemma accepts_any_rootKey (strict : bool) (h : Heap) (s : Schema) :
  custom_free_schema s ->
  forall obj rootKey rootKey',
    accepts_schema strict h s obj rootKey ->
    accepts_schema strict h s obj rootKey'.
Proof.
  revert s.
  apply (Schema_mutind
    (fun f =>
       custom_free_field f ->
       (forall key key' v,
          accepts_value strict h f key v -> accepts_value strict h f key' v) /\
       on_option (fun e => forall key key' v,
         accepts_value strict h e key v -> accepts_value strict h e key' v)
         (field_of f))
    (fun s =>
       custom_free_schema s ->
       forall obj rootKey rootKey',
         accepts_schema strict h s obj rootKey ->
         accepts_schema strict h s obj rootKey')).
  - intros o t sch r fld Hs Hf [Hcs Hcf]. split.
    + intros key key' v. simpl. destruct t; try done.
      intros [Hty Hacc]. split; [exact Hty|].
      destruct sch as [s|]; [|done]. simpl in Hs. now apply (Hs Hcs v (Some key)).
    + destruct fld as [fld|]; [|exact I]. simpl in *. now apply Hf.
  - intros es Hes Hfree obj rootKey rootKey'.
    apply custom_free_schema_Forall in Hfree.
    rewrite !accepts_schema_Forall. intros [Hkeys Hall]. split; [exact Hkeys|].
    rewrite Forall_forall in Hes, Hall, Hfree. apply Forall_forall.
    intros [k f] Hin.
    specialize (Hes _ Hin). specialize (Hall _ Hin). specialize (Hfree _ Hin).
    simpl in *. destruct Hfree as [Hnc Hcf]. destruct (Hes Hcf) as [Hv He].
    unfold accepts_entry in *.
    destruct Hall as [Hskip|Hacc]; [now left|right].
    destruct (type f); try now apply (Hv (qualify rootKey k)).
    + destruct Hacc as [Harr Hel]. split; [exact Harr|].
      intros i Hi. specialize (Hel i Hi).
      destruct (field_of f) as [fld|]; [|done]. simpl in He.
      now apply (He (indexed (qualify rootKey k) i)).
    + done.
Qed.

(** X4. For a schema without custom fields, whether [validate] accepts an
    input does not depend on the [rootKey] option. *)
Theorem acceptance_does_not_depend_on_rootKey (schema : Schema) (obj : Value)
    (options options' : ValidateOptions) (h : Heap) :
  custom_free_schema schema ->
  Validator.finalOptions_strict options = Validator.finalOptions_strict options' ->
  (Validator.validate schema obj options h = Return obj h <->
   Validator.validate schema obj options' h = Return obj h).
Proof.
  intros Hfree Hstrict.
  rewrite !validate_Return_iff_walk, !walk_returns_iff_accepted, Hstrict.
  split; now apply accepts_any_rootKey.
Qed.

(** ** Only the declared keys are read *)

Lemma entry_reads_its_key (obj obj' : Value) (strict : bool)
    (rootKey : option string) (key : string) (f : FieldSpec) (h : Heap) :
  get_prop h obj key = get_prop h obj' key ->
  entry obj strict rootKey key f h = entry obj' strict rootKey key f h.
Proof.
  intros Heq. unfold entry, entry_with. unfold_M.
  unfold read_prop, call_resolver. cbv beta. rewrite !Heq.
  destruct (skipped f _); [reflexivity|].
  destruct (type f); rewrite ?Heq; try reflexivity.
  destruct (resolver f) as [r|]; [|reflexivity].
  rewrite ?Heq. destruct (r h _ _); [reflexivity|]. now rewrite ?Heq.
Qed.

Lemma for_entries_read_their_keys (obj obj' : Value) (strict : bool)
    (rootKey : option string) (es : list (string * FieldSpec)) (h : Heap) :
  Forall (fun kf => get_prop h obj (fst kf) = get_prop h obj' (fst kf)) es ->
  for_entries (entry obj strict rootKey) es h =
  for_entries (entry obj' strict rootKey) es h.
Proof.
  induction 1 as [|[k f] rest Hk _ IH]; simpl; [reflexivity|].
  unfold_M. simpl in Hk. rewrite (entry_reads_its_key obj obj') by exact Hk.
  pose proof (entry_returns obj' strict rootKey k f h) as Hr.
  unfold returns_at in Hr.
  destruct (entry obj' strict rootKey k f h) as [[] h1|e h1]; [|reflexivity].
  destruct Hr as [_ ->]. exact IH.
Qed.

(** X5. With strict mode off, two inputs that hold the same values under the
    keys the schema declares are treated alike, whatever else they
    contain: both are returned, or both fail with the same exception. *)
Theorem validate_reads_only_declared_keys (schema : Schema) (obj obj' : Value)
    (options : ValidateOptions) (h : Heap) :
  Validator.finalOptions_strict options = false ->
  Forall (fun kf => get_prop h obj (fst kf) = get_prop h obj' (fst kf))
    (entries schema) ->
  (Validator.validate schema obj options h = Return obj h <->
   Validator.validate schema obj' options h = Return obj' h) /\
  (forall e,
     Validator.validate schema obj options h = Throw e h <->
     Validator.validate schema obj' options h = Throw e h).
Proof.
  intros Hoff Hsame.
  unfold Validator.validate, _checkObject. rewrite Hoff.
  rewrite !_objectFieldChecker_eq. unfold_M. simpl.
  rewrite (for_entries_read_their_keys obj obj') by exact Hsame.
  destruct (for_entries _ _ h) as [[] h1|e1 h1]; split.
  - split; intros [= ->]; reflexivity.
  - split; discriminate.
  - split; destruct (isFieldValidationError e1), e1; discriminate.
  - tauto.
Qed.

(** ** How a plain schema fails *)

Lemma plain_schema_Forall (es : list (string * FieldSpec)) :
  plain_schema (MkSchema es) <-> Forall (fun kf => plain_field (snd kf)) es.
Proof.
  simpl. induction es as [|[k f] rest IH].
  - split; [constructor|done].
  - rewrite Forall_cons. simpl. now rewrite IH.
Qed.

Lemma strict_check_plain_failure (schema : Schema) (obj : Value) (strict : bool)
    (h h' : Heap) (e : Exn) :
  strict_check schema obj strict h = Throw e h' -> plain_failure strict h e.
Proof.
  unfold strict_check. destruct strict; [|discriminate].
  destruct (Object_keys h obj) as [keys|]; [|intros [= <- _]; now left].
  destruct (List.filter _ keys); [discriminate|now intros [= <- _]].
Qed.

Lemma thrown_mismatch_plain_failure (strict : bool) (h : Heap) (key : string)
    (t : Type_.t) (value : Value) :
  plain_failure strict h (thrown_mismatch h key t value).
Proof.
  destruct (JSON_stringify_throws h value) eqn:Hv.
  - rewrite thrown_mismatch_circular by exact Hv. right. now exists value.
  - now rewrite thrown_mismatch_serialisable.
Qed.

Lemma walk_plain_failure (strict : bool) (h : Heap) (s : Schema) :
  plain_schema s ->
  forall obj rootKey e h',
    _objectFieldChecker s obj strict rootKey h = Throw e h' ->
    plain_failure strict h e.
Proof.
  revert s.
  pose (fails_plainly := fun f : FieldSpec =>
    is_field_kind (type f) = true ->
    forall v key e h',
      _fieldChecker v key (type f) strict (schema f) h = Throw e h' ->
      plain_failure strict h e).
  apply (Schema_mutind
    (fun f => plain_field f ->
              fails_plainly f /\ on_option fails_plainly (field_of f))
    (fun s => plain_schema s ->
              forall obj rootKey e h',
                _objectFieldChecker s obj strict rootKey h = Throw e h' ->
                plain_failure strict h e)).
  - intros o t sch r fld Hs Hf (Hnc & Hobj & Harr & Hps & Hpf). split.
    + intros Hk v key e h'. unfold _fieldChecker, _fieldChecker_with. simpl.
      destruct t; try discriminate.
      * unfold _isString. destruct (negb _); [|discriminate].
        rewrite throw_new_FieldTypeMismatchError. intros [= <- _].
        apply thrown_mismatch_plain_failure.
      * unfold _isNumber. destruct (negb _); [|discriminate].
        rewrite throw_new_FieldTypeMismatchError. intros [= <- _].
        apply thrown_mismatch_plain_failure.
      * unfold _isBool. destruct (negb _); [|discriminate].
        rewrite throw_new_FieldTypeMismatchError. intros [= <- _].
        apply thrown_mismatch_plain_failure.
      * destruct sch as [s|]; [|now destruct Hobj].
        unfold _isObject. destruct (negb _); [|now apply Hs].
        rewrite throw_new_FieldTypeMismatchError. intros [= <- _].
        apply thrown_mismatch_plain_failure.
    + destruct fld as [fld|]; [|exact I]. simpl in *. now apply Hf.
  - intros es Hes Hplain obj rootKey e h'.
    apply plain_schema_Forall in Hplain.
    rewrite _objectFieldChecker_eq. unfold_M.
    destruct (strict_check _ obj strict h) as [[] h1|e1 h1] eqn:Hstrict.
    + pose proof (strict_check_returns (MkSchema es) obj strict h) as Hr.
      unfold returns_at in Hr. rewrite Hstrict in Hr. destruct Hr as [_ ->].
      destruct (for_entries _ _ h) as [[] h2|e2 h2] eqn:Hloop; [discriminate|].
      intros [= <- <-].
      apply for_entries_Throw in Hloop; [|intros k f; apply entry_returns].
      destruct Hloop as (k & f & Hin & Hthrow). simpl in Hin.
      apply list_elem_of_In in Hin.
      rewrite Forall_forall in Hes, Hplain.
      specialize (Hes _ Hin). specialize (Hplain _ Hin). simpl in *.
      destruct (Hes Hplain) as [Hv He].
      destruct f as [o t sch r fld]. simpl in *.
      destruct Hplain as (Hnc & Hobj & Harr & _ & _).
      destruct (skipped (MkFieldSpec o t sch r fld) (get_prop h obj k)) eqn:Hskip.
      { rewrite entry_skipped in Hthrow by exact Hskip. discriminate Hthrow. }
      destruct (is_field_kind t) eqn:Hk.
      * rewrite entry_field in Hthrow by assumption. unfold_M.
        destruct (_fieldChecker _ _ _ _ _ h) as [v h3|e3 h3] eqn:Hc;
          [discriminate|].
        injection Hthrow as <- <-. now apply (Hv Hk) in Hc.
      * assert (Ht : t = Type_.Array) by (destruct t; try done). subst t.
        rewrite entry_array in Hthrow by done. unfold_M.
        destruct (_isArray _ _ _ h) as [v h3|e3 h3] eqn:Hc; [discriminate|].
        injection Hthrow as <- <-.
        apply _isArray_Throw in Hc; [|intros v i; apply _elementChecker_returns].
        destruct Hc as [->|(j & _ & Hj)]; [apply thrown_mismatch_plain_failure|].
        unfold _elementChecker, element_checker in Hj. simpl in Hj.
        destruct fld as [fld|]; [|now destruct (Harr eq_refl)].
        fold _fieldChecker in Hj. simpl in He.
        now apply (He (Harr eq_refl)) in Hj.
    + intros [= <- _]. eapply strict_check_plain_failure, Hstrict.
Qed.

(** X6. For a plain schema, [validate] returns its input or fails in one
    of these ways, the store being as it was: with the wrapper around a
    type-mismatch error, whose value [JSON.stringify] serialises; with a
    TypeError, which needs strict mode (that of [Object.keys] on [null] or
    [undefined]) or a circular value in the store (that of
    [JSON.stringify] in the constructor of the type-mismatch error); or,
    in strict mode, with the wrapper around an unexpected-field error.  No
    plain [Error] is thrown. *)
Theorem plain_schema_failures (schema : Schema) (obj : Value)
    (options : ValidateOptions) (h : Heap) :
  plain_schema schema ->
  Validator.validate schema obj options h = Return obj h \/
  exists e,
    Validator.validate schema obj options h = Throw e h /\
    ((exists key type value,
        e = ValidationError (FieldTypeMismatchError key type value) /\
        JSON_stringify_throws h value = false) \/
     (exists m,
        e = TypeError m /\
        (Validator.finalOptions_strict options = true \/
         exists value, JSON_stringify_throws h value = true)) \/
     (Validator.finalOptions_strict options = true /\
      exists key, e = ValidationError (UnexpectedFieldError key))).
Proof.
  intros Hplain.
  destruct (_objectFieldChecker_cases schema obj
              (Validator.finalOptions_strict options) (rootKey options) h)
    as [Hr|[e1 Hw]].
  - left. now apply validate_Return.
  - right. exists (rethrown e1). split; [now apply validate_Throw|].
    apply (walk_plain_failure _ _ _ Hplain) in Hw.
    destruct e1 as [[k t v|k|k]|fe|m|m]; simpl in *; try done; eauto 8.
Qed.

(** ** The field constructors *)

Lemma strict_eq_undefined (v : Value) :
  strict_eq v VUndefined = true <-> v = VUndefined.
Proof. destruct v as [| | |[|z]| |]; simpl; split; try done. Qed.

(** X7. Whatever constructor built it, a field is skipped exactly when it was
    built with [{ optional: true }] and its value is [undefined]; a field
    built without options, or with [{ optional: false }], is never
    skipped, and [null] is not absence. *)
Theorem constructed_field_is_skipped_iff (fieldOptions : FieldOptions)
    (v : Value) (t : Type_.t) (s : Schema) (element : FieldSpec) (r : Resolver) :
  Forall (fun f => skipped f v = true <->
                   optional fieldOptions = Some true /\ v = VUndefined)
    [field t fieldOptions; objectField s fieldOptions;
     arrayField element fieldOptions; customField r fieldOptions].
Proof.
  assert (H : bool_decide (finalOptions fieldOptions = Some true)
                && strict_eq v VUndefined = true <->
              optional fieldOptions = Some true /\ v = VUndefined).
  { rewrite andb_true_iff, bool_decide_eq_true, strict_eq_undefined.
    apply and_iff_compat_r. unfold finalOptions.
    destruct (optional fieldOptions) as [[|]|]; split; congruence. }
  repeat (apply List.Forall_cons; [exact H|]). apply List.Forall_nil.
Qed.

Lemma constructors_build_plain_fields (fieldOptions : FieldOptions) :
  (forall t, is_field_kind t = true -> t <> Type_.Object ->
             plain_field (field t fieldOptions)) /\
  (forall s, plain_schema s -> plain_field (objectField s fieldOptions)) /\
  (forall element,
     plain_field element -> is_field_kind (type element) = true ->
     plain_field (arrayField element fieldOptions)).
Proof.
  repeat split; try done.
  - intros ->. discriminate.
  - now destruct t.
Qed.

(** ** The primitive kinds *)

(** X8. No coercion: the check of a primitive kind returns the value exactly
    when it is a string, a number or a boolean respectively.  Otherwise it
    throws the type-mismatch error that carries the key, the kind and the
    value, when [JSON.stringify] serialises the value; and the TypeError
    of [JSON.stringify], out of the constructor of that error, when the
    value is circular. *)
Theorem primitive_kinds_accept_exactly_their_type (t : Type_.t) (v : Value)
    (key : string) (strict : bool) (sch : option Schema) (h : Heap) :
  t = Type_.String \/ t = Type_.Number \/ t = Type_.Bool ->
  (_fieldChecker v key t strict sch h = Return v h <-> has_kind h t v) /\
  (~ has_kind h t v ->
   JSON_stringify_throws h v = false ->
   _fieldChecker v key t strict sch h =
     Throw (Classified (FieldTypeMismatchError key t v)) h) /\
  (~ has_kind h t v ->
   JSON_stringify_throws h v = true ->
   _fieldChecker v key t strict sch h =
     Throw (TypeError "Converting circular structure to JSON") h).
Proof.
  intros Ht.
  assert (Hk : is_field_kind t = true /\ t <> Type_.Object)
    by (destruct Ht as [->|[->| ->]]; split; done).
  destruct Hk as [Hk Hobj].
  assert (Hiff : has_kind h t v <-> typeof v = typeof_tag t).
  { destruct Ht as [->|[->| ->]]; destruct v; simpl; split;
      try done; try (intros [x Hx]; discriminate Hx); eauto. }
  assert (Hfail : typeof v <> typeof_tag t ->
                  _fieldChecker v key t strict sch h =
                  Throw (thrown_mismatch h key t v) h).
  { intros Hne. apply _fieldChecker_mismatch; [exact Hk| |exact Hne].
    intros Ho. now destruct (Hobj Ho). }
  rewrite Hiff. split; [|split].
  - split.
    + intros Hret. destruct (decide (typeof v = typeof_tag t)) as [|Hne]; [done|].
      rewrite Hfail in Hret by exact Hne. discriminate Hret.
    + intros Hty. now apply _fieldChecker_primitive.
  - intros Hne Hjson. rewrite Hfail by exact Hne.
    now rewrite thrown_mismatch_serialisable.
  - intros Hne Hjson. rewrite Hfail by exact Hne.
    now rewrite thrown_mismatch_circular.
Qed.

(** ** Empty arrays *)

(** X9. An empty array passes every array field, whatever its element
    specification is: the element checker is never called. *)
Theorem empty_array_passes_any_array_field (obj : Value) (strict : bool)
    (rootKey : option string) (key : string) (f : FieldSpec) (h : Heap) :
  type f = Type_.Array ->
  isArray h (get_prop h obj key) = true ->
  elements h (get_prop h obj key) = [] ->
  entry obj strict rootKey key f h = Return tt h.
Proof.
  intros Hty Harr Hnil.
  destruct (skipped f (get_prop h obj key)) eqn:Hskip.
  { now apply entry_skipped. }
  rewrite entry_array by assumption.
  rewrite (bind_Return _ _ h h (get_prop h obj key)); [reflexivity|].
  apply _isArray_passes; [|exact Harr|].
  - intros v i. apply _elementChecker_returns.
  - intros j Hj. rewrite Hnil in Hj. simpl in Hj. lia.
Qed.

(** ** The validator handle *)

Lemma handle_validate_is_validate (schema : Schema) (obj : Value)
    (options : ValidateOptions) :
  handle_validate (new_Validator schema) obj options =
  Validator.validate schema obj options.
Proof. reflexivity. Qed.

(** ** What the caller reads in the message *)

(** X10. When a required field of a kind the engine checks is absent, at any
    level the walk reaches, the message of the error the caller receives is
    [Validation error: Validation error for field "<key>" of type "<Kind>":
    No value provided]: [JSON.stringify] is not called. *)
Theorem absent_required_field_message (stringify : Value -> string)
    (top : Schema) (obj : Value) (options : ValidateOptions) (h : Heap)
    (p : list seg) (s' : Schema) (o' : Value) (r' : option string)
    (pre : list (string * FieldSpec)) (key : string) (f : FieldSpec)
    (post : list (string * FieldSpec)) :
  calls (Validator.finalOptions_strict options) h top obj (rootKey options)
    p s' o' r' ->
  reaches_entry s' o' (Validator.finalOptions_strict options) r' h pre key f post ->
  get_prop h o' key = VUndefined ->
  fieldOptions_optional f <> Some true ->
  kind_checked f ->
  exists e,
    Validator.validate top obj options h = Throw e h /\
    message stringify e =
      "Validation error: Validation error for field " +:+ dquote +:+
      qualify r' key +:+ dquote +:+ " of type " +:+ dquote +:+
      Type_toString (type f) +:+ dquote +:+ ": No value provided".
Proof.
  intros Hcalls Hreach Hv Hreq Hkind.
  pose proof (entry_absent_required o' (Validator.finalOptions_strict options)
                r' key f h Hv Hreq Hkind) as Hentry.
  apply (walk_throws_at_entry _ _ _ _ _ _ _ _ _ _ _ Hreach) in Hentry.
  apply (calls_propagate _ _ _ _ _ _ _ _ _ Hcalls) in Hentry.
  apply validate_Throw in Hentry.
  eexists. split; [exact Hentry|]. reflexivity.
Qed.

(** ** What a caller may rely on after a return *)

Lemma accepts_value_has_kind (strict : bool) (h : Heap) (f : FieldSpec)
    (key : string) (v : Value) :
  accepts_value strict h f key v -> has_kind h (type f) v.
Proof.
  destruct f as [o t sch r fld]. simpl.
  destruct t; try done; try (destruct v; simpl; try discriminate; eauto).
  all: now intros [H _].
Qed.

(** X11. When [validate] returns, every entry of the schema is either skipped
    (optional, with the value [undefined]) or holds a value of its kind,
    and every element of the value of an array field is of the element
    kind. *)
Theorem validated_fields_have_their_kind (schema : Schema) (obj : Value)
    (options : ValidateOptions) (h : Heap) :
  Validator.validate schema obj options h = Return obj h ->
  Forall (fun kf =>
            skipped (snd kf) (get_prop h obj (fst kf)) = true \/
            (has_kind h (type (snd kf)) (get_prop h obj (fst kf)) /\
             (forall element i,
                type (snd kf) = Type_.Array ->
                field_of (snd kf) = Some element ->
                i < length (elements h (get_prop h obj (fst kf))) ->
                has_kind h (type element)
                  (nth i (elements h (get_prop h obj (fst kf))) VUndefined))))
    (entries schema).
Proof.
  rewrite validate_Return_iff_walk, walk_returns_iff_accepted.
  destruct schema as [es].
  rewrite accepts_schema_Forall. intros [_ Hall]. simpl.
  eapply Forall_impl; [exact Hall|]. intros [k f] Hacc. simpl in *.
  unfold accepts_entry in Hacc. destruct Hacc as [Hskip|Hacc]; [now left|right].
  destruct (type f) eqn:Hty.
  1-4: split; [rewrite <- Hty; now apply accepts_value_has_kind in Hacc|];
       intros element i Ht; discriminate Ht.
  - destruct Hacc as [Harr Hel]. split; [exact Harr|].
    intros element i _ He Hi. specialize (Hel i Hi). rewrite He in Hel.
    now apply accepts_value_has_kind in Hel.
  - split; [exact I|]. intros element i Ht; discriminate Ht.
Qed.

(** ** The further properties at sample inputs *)

Lemma acceptance_survives_strict_off_witness :
  Validator.validate schema_a (VRef 0) default_options heap_a_only =
    Return (VRef 0) heap_a_only.
Proof.
  apply (acceptance_survives_strict_off schema_a (VRef 0) strictly
           default_options heap_a_only).
  - reflexivity.
  - reflexivity.
  - vm_compute. reflexivity.
Defined.

Lemma acceptance_does_not_depend_on_rootKey_witness :
  Validator.validate schema_u_age (VRef 0) (under "request.body") heap_u_age_one =
    Return (VRef 0) heap_u_age_one.
Proof.
  apply (proj1 (acceptance_does_not_depend_on_rootKey schema_u_age (VRef 0)
                  default_options (under "request.body") heap_u_age_one
                  ltac:(simpl; repeat split; discriminate) eq_refl)).
  vm_compute. reflexivity.
Defined.

Lemma validate_reads_only_declared_keys_witness :
  Validator.validate schema_a (VRef 1) default_options heap_a_twice =
    Return (VRef 1) heap_a_twice.
Proof.
  apply (proj1 (proj1 (validate_reads_only_declared_keys schema_a (VRef 0) (VRef 1)
                         default_options heap_a_twice eq_refl
                         ltac:(repeat constructor)))).
  vm_compute. reflexivity.
Defined.

Lemma plain_schema_failures_witness :
  exists e,
    Validator.validate schema_u_age (VRef 0) default_options heap_u_age_bad =
      Throw e heap_u_age_bad /\
    ((exists key type value,
        e = ValidationError (FieldTypeMismatchError key type value) /\
        JSON_stringify_throws heap_u_age_bad value = false) \/
     (exists m,
        e = TypeError m /\
        (Validator.finalOptions_strict default_options = true \/
         exists value, JSON_stringify_throws heap_u_age_bad value = true)) \/
     (Validator.finalOptions_strict default_options = true /\
      exists key, e = ValidationError (UnexpectedFieldError key))).
Proof.
  destruct (plain_schema_failures schema_u_age (VRef 0) default_options
              heap_u_age_bad) as [Hreturn|Hthrow].
  - simpl. repeat split; discriminate.
  - vm_compute in Hreturn. discriminate Hreturn.
  - exact Hthrow.
Defined.

Lemma primitive_kinds_witness :
  _fieldChecker (VString "5") "n" Type_.Number false None heap_a_only =
    Throw (Classified (FieldTypeMismatchError "n" Type_.Number (VString "5")))
      heap_a_only /\
  _fieldChecker (VRef 1) "a" Type_.String false None heap_a_circular =
    Throw (TypeError "Converting circular structure to JSON") heap_a_circular.
Proof.
  split.
  - apply (proj1 (proj2 (primitive_kinds_accept_exactly_their_type
                           Type_.Number (VString "5") "n" false None heap_a_only
                           (or_intror (or_introl eq_refl))))).
    + intros [n Hn]. discriminate Hn.
    + vm_compute. reflexivity.
  - apply (proj2 (proj2 (primitive_kinds_accept_exactly_their_type
                           Type_.String (VRef 1) "a" false None heap_a_circular
                           (or_introl eq_refl)))).
    + intros [s Hs]. discriminate Hs.
    + vm_compute. reflexivity.
Defined.

Lemma empty_array_passes_any_array_field_witness :
  entry (VRef 0) false None "xs"
    (arrayField (customField same no_options) no_options) heap_xs_empty =
    Return tt heap_xs_empty.
Proof.
  apply (empty_array_passes_any_array_field (VRef 0) false None "xs"
           (arrayField (customField same no_options) no_options) heap_xs_empty);
    reflexivity.
Defined.

Lemma absent_required_field_message_witness :
  exists e,
    Validator.validate schema_a_b (VRef 0) default_options heap_a_b_empty =
      Throw e heap_a_b_empty /\
    message no_stringify e =
      "Validation error: Validation error for field " +:+ dquote +:+
      qualify (Some "b") "c" +:+ dquote +:+ " of type " +:+ dquote +:+
      Type_toString (type (field Type_.Number no_options)) +:+ dquote +:+
      ": No value provided".
Proof.
  apply (absent_required_field_message no_stringify
           schema_a_b (VRef 0) default_options heap_a_b_empty
           [Name "b"] schema_c_d (VRef 1) (Some "b")
           [] "c" (field Type_.Number no_options)
           [("d", field Type_.Bool optionally)]
           calls_a_b (conj eq_refl (conj eq_refl eq_refl)) eq_refl).
  - simpl. discriminate.
  - split; simpl; discriminate.
Defined.

Lemma validated_fields_have_their_kind_witness :
  Forall (fun kf =>
            skipped (snd kf) (get_prop heap_a_only (VRef 0) (fst kf)) = true \/
            (has_kind heap_a_only (type (snd kf))
               (get_prop heap_a_only (VRef 0) (fst kf)) /\
             (forall element i,
                type (snd kf) = Type_.Array ->
                field_of (snd kf) = Some element ->
                i < length (elements heap_a_only
                             (get_prop heap_a_only (VRef 0) (fst kf))) ->
                has_kind heap_a_only (type element)
                  (nth i (elements heap_a_only
                            (get_prop heap_a_only (VRef 0) (fst kf))) VUndefined))))
    (entries schema_a).
Proof.
  apply (validated_fields_have_their_kind schema_a (VRef 0) default_options
           heap_a_only).
  vm_compute. reflexivity.
Defined.
